(** * MintLite history synthesiser ([auto_dev.py]): scheduler, rotation,
      conditional commits, invariant check and publishing order.

    The development embeds [auto_dev.py] shallowly:
    - a [datetime] is the number of minutes since the midnight that opens
      day ordinal 0 (every value the script builds is a whole number of
      minutes); a civil date is its day ordinal.  Python's [datetime] range
      (years 1..9999) is not modelled: arithmetic is on unbounded [Z];
    - the module-level [random] generator is a stream of raw draws, and
      [random.randint a b] maps the next draw into [a..b];
    - the working tree, the git index, the last commit's tree and the
      commit log form a [World] that the script's commands update; a git
      command fails only for a reason the [World] shows (nothing staged, a
      remote alias that exists or is missing, no commit to point at);
    - the actions of the phase tables are opaque: an action rewrites files
      of the working tree and may draw from [random], and [main] is taken
      over any list of phases;
    - Python exceptions are the [Raise] outcome of a small state-and-error
      monad. *)

From Stdlib Require Import ZArith Lia List Sorting.Sorted Ascii String DecimalString.
From stdpp Require Import base decidable option list sorting strings gmap.
Import ListNotations.

Local Open Scope Z_scope.

(** ** Time *)

Module Time.

(** A [datetime], in minutes. *)
Definition datetime := Z.

(** [timedelta(days=d)], [timedelta(hours=h)], [timedelta(minutes=m)]. *)
Definition days (d : Z) : Z := d * 1440.
Definition hours (h : Z) : Z := h * 60.
Definition minutes (m : Z) : Z := m.

(** [datetime.strptime(s, '%Y-%m-%d')] for the civil date of ordinal [d]:
    that day's midnight. *)
Definition strptime (d : Z) : datetime := days d.

(** The [.days] attribute of a [timedelta] (floor of the day count). *)
Definition timedelta_days (td : Z) : Z := td / 1440.

End Time.

(** ** The random source *)

Module Random.

(** State of the generator: the stream of raw draws still to come. *)
Definition Rng := nat -> Z.

(** Two states that will produce the same draws. *)
Definition same_draws (g1 g2 : Rng) : Prop := forall n, g1 n = g2 n.

Definition advance (g : Rng) : Rng := fun n => g (S n).

(** [random.randint(a, b)]: an integer of [a..b], decided by the next draw. *)
Definition randint (a b : Z) (g : Rng) : Z * Rng :=
  (a + (g 0%nat) mod (b - a + 1), advance g).

End Random.

(** ** The scheduler *)

Module Scheduler.
Import Time Random.

(** Body of the [for i in range(count)] loop of [dates_between], up to the
    [dates.append(dt)]: the jittered timestamp for the step whose base date
    is [current], clamped into the window that ends at [end_dt]. *)
Definition jittered (end_dt current : datetime) (g : Rng) : datetime * Rng :=
  let '(jitter_hours, g1) := randint 9 20 g in
  let '(jitter_minutes, g2) := randint 0 59 g1 in
  let dt := current + hours jitter_hours + minutes jitter_minutes in
  if dt >? end_dt
  then let '(back, g3) := randint 1 6 g2 in (end_dt - hours back, g3)
  else (dt, g2).

(** The loop itself, [n] iterations left; [current += timedelta(days=step)]
    closes each iteration. *)
Fixpoint dates_loop (n : nat) (end_dt current step : Z) (g : Rng)
  : list datetime * Rng :=
  match n with
  | O => ([], g)
  | S n' =>
      let '(dt, g1) := jittered end_dt current g in
      let '(rest, g2) := dates_loop n' end_dt (current + days step) step g1 in
      (dt :: rest, g2)
  end.

(** [dates_between(start, end, count)].  [list.sort] on datetimes is
    modelled by the merge sort of stdpp on [Z.le]. *)
Definition dates_between (start end_ count : Z) (g : Rng)
  : list datetime * Rng :=
  let start_dt := strptime start in
  let end_dt := strptime end_ in
  let total_days := timedelta_days (end_dt - start_dt) in
  if count <=? 0 then ([], g)
  else
    let step := Z.max 1 (total_days / count) in
    let '(dates, g') :=
      dates_loop (Z.to_nat count) end_dt (start_dt + days 1) step g in
    (merge_sort Z.le dates, g').

End Scheduler.

(** ** The repository and the git commands *)

Module Git.
Import Time.

(** The git command lines the script issues. *)
Inductive GitCmd :=
| ConfigUserName (name : string)
| ConfigUserEmail (email : string)
| AddAll
| DiffCachedQuiet
| CommitM (message : string)
| RemoteList
| RemoteAdd (alias url : string)
| RemoteSetUrl (alias url : string)
| BranchForce (branch target : string)
| PushUpstream (alias refspec : string)
| Push (alias refspec : string).

(** The [argv] each command stands for. *)
Definition argv (c : GitCmd) : list string :=
  match c with
  | ConfigUserName name => ["git"; "config"; "user.name"; name]
  | ConfigUserEmail email => ["git"; "config"; "user.email"; email]
  | AddAll => ["git"; "add"; "-A"]
  | DiffCachedQuiet => ["git"; "diff"; "--cached"; "--quiet"; "--exit-code"]
  | CommitM message => ["git"; "commit"; "-m"; message]
  | RemoteList => ["git"; "remote"]
  | RemoteAdd alias url => ["git"; "remote"; "add"; alias; url]
  | RemoteSetUrl alias url => ["git"; "remote"; "set-url"; alias; url]
  | BranchForce branch target => ["git"; "branch"; "-f"; branch; target]
  | PushUpstream alias refspec => ["git"; "push"; "-u"; alias; refspec]
  | Push alias refspec => ["git"; "push"; alias; refspec]
  end%string.

(** The commands of the publishing step. *)
Definition is_publish (c : GitCmd) : bool :=
  match c with
  | RemoteList | RemoteAdd _ _ | RemoteSetUrl _ _
  | BranchForce _ _ | PushUpstream _ _ | Push _ _ => true
  | _ => false
  end.

(** A commit as the store records it. The dates are [None] when the
    environment did not force them. *)
Record CommitRecord := mkCommit {
  c_message : string;
  c_author_name : string;
  c_author_email : string;
  c_author_date : option datetime;
  c_committer_date : option datetime;
  c_tree : gmap string string
}.

(** The repository directory, the process environment and the commands run
    so far.  [files] is the content of the working tree that git does not
    ignore, keyed by path under [REPO_DIR]; [head_tree] is the tree of the
    last commit (empty before the first one); the current branch is [main]. *)
Record World := mkWorld {
  files : gmap string string;
  index : gmap string string;
  head_tree : gmap string string;
  log : list CommitRecord;
  user_name : string;
  user_email : string;
  GIT_AUTHOR_DATE : option datetime;
  GIT_COMMITTER_DATE : option datetime;
  remotes : list (string * string);
  master : option nat;
  pushed : list (string * string);
  trace : list GitCmd
}.

Definition set_files (f : gmap string string) (w : World) : World :=
  mkWorld f (index w) (head_tree w) (log w) (user_name w) (user_email w)
    (GIT_AUTHOR_DATE w) (GIT_COMMITTER_DATE w) (remotes w) (master w)
    (pushed w) (trace w).

Definition set_index (i : gmap string string) (w : World) : World :=
  mkWorld (files w) i (head_tree w) (log w) (user_name w) (user_email w)
    (GIT_AUTHOR_DATE w) (GIT_COMMITTER_DATE w) (remotes w) (master w)
    (pushed w) (trace w).

Definition set_user_name (n : string) (w : World) : World :=
  mkWorld (files w) (index w) (head_tree w) (log w) n (user_email w)
    (GIT_AUTHOR_DATE w) (GIT_COMMITTER_DATE w) (remotes w) (master w)
    (pushed w) (trace w).

Definition set_user_email (e : string) (w : World) : World :=
  mkWorld (files w) (index w) (head_tree w) (log w) (user_name w) e
    (GIT_AUTHOR_DATE w) (GIT_COMMITTER_DATE w) (remotes w) (master w)
    (pushed w) (trace w).

Definition set_author_date (d : option datetime) (w : World) : World :=
  mkWorld (files w) (index w) (head_tree w) (log w) (user_name w) (user_email w)
    d (GIT_COMMITTER_DATE w) (remotes w) (master w) (pushed w) (trace w).

Definition set_committer_date (d : option datetime) (w : World) : World :=
  mkWorld (files w) (index w) (head_tree w) (log w) (user_name w) (user_email w)
    (GIT_AUTHOR_DATE w) d (remotes w) (master w) (pushed w) (trace w).

Definition add_commit (c : CommitRecord) (w : World) : World :=
  mkWorld (files w) (index w) (c_tree c) (log w ++ [c]) (user_name w)
    (user_email w) (GIT_AUTHOR_DATE w) (GIT_COMMITTER_DATE w) (remotes w)
    (master w) (pushed w) (trace w).

Definition set_remotes (r : list (string * string)) (w : World) : World :=
  mkWorld (files w) (index w) (head_tree w) (log w) (user_name w) (user_email w)
    (GIT_AUTHOR_DATE w) (GIT_COMMITTER_DATE w) r (master w) (pushed w) (trace w).

Definition set_master (m : option nat) (w : World) : World :=
  mkWorld (files w) (index w) (head_tree w) (log w) (user_name w) (user_email w)
    (GIT_AUTHOR_DATE w) (GIT_COMMITTER_DATE w) (remotes w) m (pushed w) (trace w).

Definition add_pushed (p : string * string) (w : World) : World :=
  mkWorld (files w) (index w) (head_tree w) (log w) (user_name w) (user_email w)
    (GIT_AUTHOR_DATE w) (GIT_COMMITTER_DATE w) (remotes w) (master w)
    (pushed w ++ [p]) (trace w).

Definition record_cmd (c : GitCmd) (w : World) : World :=
  mkWorld (files w) (index w) (head_tree w) (log w) (user_name w) (user_email w)
    (GIT_AUTHOR_DATE w) (GIT_COMMITTER_DATE w) (remotes w) (master w)
    (pushed w) (trace w ++ [c]).

Definition has_remote (alias : string) (w : World) : bool :=
  bool_decide (alias ∈ (remotes w).*1).

Fixpoint set_url (alias url : string) (r : list (string * string))
  : list (string * string) :=
  match r with
  | [] => []
  | (a, u) :: r' =>
      if decide (a = alias) then (a, url) :: r' else (a, u) :: set_url alias url r'
  end.

(** What a command does to the repository, and its exit status. *)
Definition exec (c : GitCmd) (w : World) : Z * World :=
  match c with
  | ConfigUserName name => (0, set_user_name name w)
  | ConfigUserEmail email => (0, set_user_email email w)
  | AddAll => (0, set_index (files w) w)
  | DiffCachedQuiet =>
      (if decide (index w = head_tree w) then 0 else 1, w)
  | CommitM message =>
      if decide (index w = head_tree w) then (1, w)
      else (0, add_commit (mkCommit message (user_name w) (user_email w)
                             (GIT_AUTHOR_DATE w) (GIT_COMMITTER_DATE w)
                             (index w)) w)
  | RemoteList => (0, w)
  | RemoteAdd alias url =>
      if has_remote alias w then (3, w)
      else (0, set_remotes (remotes w ++ [(alias, url)]) w)
  | RemoteSetUrl alias url =>
      if has_remote alias w then (0, set_remotes (set_url alias url (remotes w)) w)
      else (2, w)
  | BranchForce branch target =>
      match log w with
      | [] => (128, w)
      | _ => (0, set_master (Some (length (log w))) w)
      end
  | PushUpstream alias refspec | Push alias refspec =>
      if has_remote alias w then (0, add_pushed (alias, refspec) w) else (128, w)
  end.

(** Standard output of [git remote]: one alias per line. *)
Definition newline : string := String (ascii_of_nat 10) EmptyString.

Definition remote_stdout (w : World) : string :=
  String.concat "" (map (fun r => (r.1 ++ newline)%string) (remotes w)).

End Git.

(** ** Exceptions, the statement monad and the script *)

Module Script.
Import Time Random Scheduler Git.

(** Python exceptions the script can end with. *)
Inductive exn :=
| RuntimeError (msg : string)
| StopIteration
| IndexError
| KeyError (key : string)
| ZeroDivisionError
| CalledProcessError (cmd : GitCmd) (returncode : Z).

Inductive Outcome (A : Type) :=
| Ok (a : A)
| Raise (e : exn).
Arguments Ok {A} a.
Arguments Raise {A} e.

(** The process state a statement runs in: the repository and the state of
    the [random] module. *)
Definition State := (World * Rng)%type.

(** A statement: runs on a state, ends normally with a value or with an
    exception; in both cases the effects made so far stay. *)
Definition M (A : Type) := State -> Outcome A * State.

Definition ret {A} (a : A) : M A := fun s => (Ok a, s).
Definition raise {A} (e : exn) : M A := fun s => (Raise e, s).
Definition bind {A B} (m : M A) (k : A -> M B) : M B :=
  fun s => match m s with
           | (Ok a, s') => k a s'
           | (Raise e, s') => (Raise e, s')
           end.
Definition lift {A} (o : Outcome A) : M A := fun s => (o, s).
Definition modify_world (f : World -> World) : M unit :=
  fun s => (Ok tt, (f s.1, s.2)).

Notation "'do' x <- m ; k" := (bind m (fun x => k))
  (at level 20, x name, m at level 100, k at level 200, only parsing).
Notation "m ;; k" := (bind m (fun _ => k))
  (at level 100, k at level 200, right associativity, only parsing).

(** [subprocess.run(cmd, cwd=REPO_DIR)]: the command runs and is recorded;
    the result is its exit status. *)
Definition subprocess_run (c : GitCmd) : M Z :=
  fun s => let '(code, w) := exec c (record_cmd c s.1) in (Ok code, (w, s.2)).

(** [run(cmd)]: [subprocess.run(..., check=True)]. *)
Definition run (c : GitCmd) : M unit :=
  do code <- subprocess_run c;
  if code =? 0 then ret tt else raise (CalledProcessError c code).

(** One row of the accounts table. *)
Record Account := mkAccount {
  username : string;
  email : string;
  token : string
}.

(** [read_accounts(csv_path)], on the rows the CSV reader yields. *)
Definition read_accounts (rows : list Account) : Outcome (list Account) :=
  let accounts :=
    map (fun row => mkAccount (username row) (email row) (token row)) rows in
  if (length accounts <? 2)%nat
  then Raise (RuntimeError "Need at least two accounts to rotate contributors.")
  else Ok accounts.

Definition set_git_author (name email : string) : M unit :=
  run (ConfigUserName name);;
  run (ConfigUserEmail email).

(** [commit_all(message, when, name, email)].  The environment keeps the
    datetime that the script renders with [strftime]. *)
Definition commit_all (message : string) (when : datetime) (name email : string)
  : M bool :=
  modify_world (set_author_date (Some when));;
  modify_world (fun w => set_committer_date (GIT_AUTHOR_DATE w) w);;
  set_git_author name email;;
  run AddAll;;
  do returncode <- subprocess_run DiffCachedQuiet;
  if returncode =? 0 then ret false
  else run (CommitM message);; ret true.

Definition write_file (path content : string) (f : gmap string string)
  : gmap string string :=
  <[path := content]> f.


Definition gitignore_lines : list string :=
  ["node_modules/"; ".next/"; "dist/"; "build/"; "coverage/"; ".env";
   ".env.local"; "*.log"; ".DS_Store"; ".idea/"; ".vscode/";
   "github_accounts.csv"; "project_description.txt"; "artifacts/"; "cache/";
   "*.tmp"; "*.bak"; "**/*.local.*"; ""]%string.

Definition ensure_initial_gitignore : M unit :=
  modify_world (fun w =>
    if decide (is_Some (files w !! ".gitignore"%string)) then w
    else set_files
           (write_file ".gitignore" (String.concat newline gitignore_lines)
              (files w)) w).

(** The mutation effect of an action: it rewrites files of the working tree
    and may draw from [random]. *)
Definition Action := gmap string string -> Rng -> gmap string string * Rng.

Definition call_action (a : Action) : M unit :=
  fun s => let '(f, g) := a (files s.1) s.2 in (Ok tt, (set_files f s.1, g)).

(** A phase: start date, end date, and the [(message, action)] list. *)
Definition Phase := (Z * Z * list (string * Action))%type.

(** A Python [dict] from user names to counts, in insertion order. *)
Fixpoint dict_set (k : string) (v : Z) (d : list (string * Z))
  : list (string * Z) :=
  match d with
  | [] => [(k, v)]
  | (k', v') :: d' =>
      if decide (k' = k) then (k', v) :: d' else (k', v') :: dict_set k v d'
  end.

Fixpoint dict_get (k : string) (d : list (string * Z)) : option Z :=
  match d with
  | [] => None
  | (k', v') :: d' => if decide (k' = k) then Some v' else dict_get k d'
  end.

(** [{a['username']: 0 for a in accounts}] *)
Definition initial_counts (accounts : list Account) : list (string * Z) :=
  fold_left (fun d a => dict_set (username a) 0 d) accounts [].

(** [author_counts[user] += 1] *)
Definition increment (user : string) (d : list (string * Z))
  : Outcome (list (string * Z)) :=
  match dict_get user d with
  | None => Raise (KeyError user)
  | Some cnt => Ok (dict_set user (cnt + 1) d)
  end.

(** [accounts[author_index % len(accounts)]] *)
Definition pick_author (accounts : list Account) (author_index : nat)
  : Outcome Account :=
  match length accounts with
  | O => Raise ZeroDivisionError
  | S _ =>
      match accounts !! (author_index mod length accounts)%nat with
      | Some a => Ok a
      | None => Raise IndexError
      end
  end.

(** [dates[c_idx]] *)
Definition date_at (dates : list datetime) (c_idx : nat) : Outcome datetime :=
  match dates !! c_idx with
  | Some d => Ok d
  | None => Raise IndexError
  end.

(** The loop variables of [main]: [author_counts] and [author_index]. *)
Definition Rotation := (list (string * Z) * nat)%type.

(** Body of the inner loop of [main] for the action at position [c_idx]. *)
Definition perform (accounts : list Account) (dates : list datetime)
    (c_idx : nat) (commit : string * Action) (r : Rotation) : M Rotation :=
  let '(message, action) := commit in
  let '(author_counts, author_index) := r in
  call_action action;;
  do author <- lift (pick_author accounts author_index);
  let author_index := S author_index in
  do when <- lift (date_at dates c_idx);
  do did_commit <- commit_all message when (username author) (email author);
  if did_commit : bool
  then do author_counts <- lift (increment (username author) author_counts);
       ret (author_counts, author_index)
  else ret (author_counts, author_index).

(** [for c_idx, (message, action) in enumerate(commits)], from [c_idx] on. *)
Fixpoint perform_all (accounts : list Account) (dates : list datetime)
    (c_idx : nat) (commits : list (string * Action)) (r : Rotation)
  : M Rotation :=
  match commits with
  | [] => ret r
  | commit :: rest =>
      do r' <- perform accounts dates c_idx commit r;
      perform_all accounts dates (S c_idx) rest r'
  end.

(** [for p_idx, (period, dates) in enumerate(zip(phases, phase_dates))] *)
Fixpoint perform_phases (accounts : list Account)
    (zipped : list (Phase * list datetime)) (r : Rotation) : M Rotation :=
  match zipped with
  | [] => ret r
  | (period, dates) :: rest =>
      let '(_, _, commits) := period in
      do r' <- perform_all accounts dates 0 commits r;
      perform_phases accounts rest r'
  end.

(** A call of [dates_between] on the generator of the process. *)
Definition call_dates_between (start end_ count : Z) : M (list datetime) :=
  fun s => let '(d, g) := dates_between start end_ count s.2 in (Ok d, (s.1, g)).

(** [for (start, end, commits) in phases:
       phase_dates.append(dates_between(start, end, len(commits)))] *)
Fixpoint compute_phase_dates (phases : list Phase) : M (list (list datetime)) :=
  match phases with
  | [] => ret []
  | (start, end_, commits) :: rest =>
      do dates <- call_dates_between start end_ (Z.of_nat (length commits));
      do more <- compute_phase_dates rest;
      ret (dates :: more)
  end.

(** [str(cnt)] *)
Definition str (n : Z) : string := NilZero.string_of_int (Z.to_int n).

(** [f'Author {user} has only {cnt} commits, must be > 13'] *)
Definition violation (user : string) (cnt : Z) : string :=
  ("Author " ++ user ++ " has only " ++ str cnt ++ " commits, must be > 13")%string.

(** [for user, cnt in author_counts.items(): if cnt <= 13: raise ...] *)
Fixpoint check_counts (items : list (string * Z)) : Outcome unit :=
  match items with
  | [] => Ok tt
  | (user, cnt) :: rest =>
      if cnt <=? 13 then Raise (RuntimeError (violation user cnt))
      else check_counts rest
  end.

(** [next(a for a in accounts if a['username'] == 'nanonkt001')] *)
Definition find_primary (accounts : list Account) : Outcome Account :=
  match List.find (fun a => bool_decide (username a = "nanonkt001"%string))
          accounts with
  | Some a => Ok a
  | None => Raise StopIteration
  end.

(** [needle in haystack] on strings *)
Fixpoint contains (needle haystack : string) : bool :=
  if String.prefix needle haystack then true
  else match haystack with
       | EmptyString => false
       | String _ rest => contains needle rest
       end.

(** [subprocess.run(['git', 'remote'], capture_output=True, text=True)],
    giving the captured [stdout]. *)
Definition git_remote : M string :=
  subprocess_run RemoteList;;
  fun s => (Ok (remote_stdout s.1), s).

(** The tail of [main] from [# Prepare remote and push] on. *)
Definition publish (accounts : list Account) : M unit :=
  do primary <- lift (find_primary accounts);
  let token := token primary in
  let origin_url :=
    ("https://" ++ token ++ "@github.com/nanonkt001/MintLite.git")%string in
  do stdout <- git_remote;
  (if negb (contains "origin" stdout)
   then run (RemoteAdd "origin" origin_url)
   else run (RemoteSetUrl "origin" origin_url));;
  run (BranchForce "master" "main");;
  set_git_author (username primary) (email primary);;
  run (PushUpstream "origin" "main:main");;
  run (Push "origin" "master:master").

(** [random.seed(n)] *)
Definition random_seed (seed : Z -> Rng) (n : Z) : M unit :=
  fun s => (Ok tt, (s.1, seed n)).

(** [main] up to the end of the commit loops; the result is [author_counts]. *)
Definition commit_phases (seed : Z -> Rng) (phases : list Phase)
    (rows : list Account) : M (list Account * list (string * Z)) :=
  random_seed seed 1337;;
  ensure_initial_gitignore;;
  do accounts <- lift (read_accounts rows);
  do phase_dates <- compute_phase_dates phases;
  let author_counts := initial_counts accounts in
  let author_index := 0%nat in
  do r <- perform_phases accounts (zip phases phase_dates)
            (author_counts, author_index);
  ret (accounts, r.1).

(** [main()].  [seed] is [random.seed]'s map from a seed to the generator
    state; [phases] are the four literal phase tables; [rows] is the content
    of the accounts CSV. *)
Definition main (seed : Z -> Rng) (phases : list Phase) (rows : list Account)
  : M unit :=
  do ac <- commit_phases seed phases rows;
  lift (check_counts ac.2);;
  publish ac.1.

End Script.

(** ** Observations on a run, used to state the properties *)

Module Observe.
Import Time Random Scheduler Git Script.

(** The two ways a timestamp comes out of one loop iteration. *)
Inductive jitter_case (end_dt current : datetime) (t : datetime) : Prop :=
| jitter_kept (h m : Z) :
    9 <= h <= 20 -> 0 <= m <= 59 ->
    t = current + hours h + minutes m -> t <= end_dt ->
    jitter_case end_dt current t
| jitter_clamped (h m back : Z) :
    9 <= h <= 20 -> 0 <= m <= 59 ->
    current + hours h + minutes m > end_dt ->
    1 <= back <= 6 -> t = end_dt - hours back ->
    jitter_case end_dt current t.

(** The repository after [commit_all] found nothing staged. *)
Definition staged (when : datetime) (name email : string) (w : World) : World :=
  mkWorld (files w) (files w) (head_tree w) (log w) name email
    (Some when) (Some when) (remotes w) (master w) (pushed w)
    (trace w ++ [ConfigUserName name; ConfigUserEmail email; AddAll;
                 DiffCachedQuiet]).

(** The repository after [commit_all] committed the staged tree. *)
Definition committed (message : string) (when : datetime) (name email : string)
    (w : World) : World :=
  mkWorld (files w) (files w) (files w)
    (log w ++ [mkCommit message name email (Some when) (Some when) (files w)])
    name email (Some when) (Some when) (remotes w) (master w) (pushed w)
    (trace w ++ [ConfigUserName name; ConfigUserEmail email; AddAll;
                 DiffCachedQuiet; CommitM message]).

(** The commands run between two states of one execution. *)
Definition new_cmds (s s' : State) : list GitCmd :=
  drop (length (trace s.1)) (trace s'.1).

(** The author names set by the [git config user.name] commands of a trace,
    in order: the identities the rotation selected. *)
Definition config_names (t : list GitCmd) : list string :=
  omap (fun c => match c with ConfigUserName n => Some n | _ => None end) t.

(** Number of actions of all phases. *)
Definition total_actions (phases : list Phase) : nat :=
  sum_list (map (fun p : Phase => length p.2) phases).


(** How often a user name occurs among the names set as author. *)
Definition times_selected (name : string) (names : list string) : nat :=
  length (filter (fun n => n = name) names).

(** Number of commits of a log that carry a given author name. *)
Definition commits_by (name : string) (cs : list CommitRecord) : Z :=
  Z.of_nat (length (filter (fun c => c_author_name c = name) cs)).

(** Every identity of the pool has its key in [author_counts]. *)
Definition keys_of (accounts : list Account) (counts : list (string * Z)) : Prop :=
  forall a, a ∈ accounts -> is_Some (dict_get (username a) counts).

(** The [.gitignore] that [ensure_initial_gitignore] writes. *)
Definition default_gitignore : string := String.concat newline gitignore_lines.

(** The repository after [ensure_initial_gitignore]. *)
Definition ensured (w : World) : World :=
  if decide (is_Some (files w !! ".gitignore"%string)) then w
  else set_files (<[".gitignore"%string := default_gitignore]> (files w)) w.

(** The names set by a stretch of commands are those of the pool positions
    [i mod m] for the calls [idx, idx+1, ..., idx+n-1]. *)
Definition rotated (accounts : list Account) (idx n : nat) (names : list string)
  : Prop :=
  Forall2 (fun name i =>
             exists a, accounts !! (i mod length accounts)%nat = Some a
                       /\ username a = name)
          names (seq idx n).

(** A stretch of [n] actions ended normally: the rotation index advanced by
    [n], only commit-side commands were run, and the authors they set follow
    the rotation. *)
Definition loop_post (accounts : list Account) (idx n : nat) (s : State)
    (res : Outcome Rotation * State) : Prop :=
  exists counts' s' t,
    res = (Ok (counts', (idx + n)%nat), s')
    /\ keys_of accounts counts'
    /\ trace s'.1 = trace s.1 ++ t
    /\ Forall (fun c => is_publish c = false) t
    /\ rotated accounts idx n (config_names t).

(** The record of a stretch of the loops: the commits it added, with their
    dates taken in order from the dates on offer, authored by identities of
    the pool, counted in [author_counts], and never more for an identity
    than the times it was set as author. *)
Definition stretch (accounts : list Account) (offered : list datetime)
    (counts : list (string * Z)) (s : State) (r' : Rotation) (s' : State) : Prop :=
  exists (cs : list CommitRecord) (ts : list datetime) (t : list GitCmd),
    log s'.1 = log s.1 ++ cs
    /\ trace s'.1 = trace s.1 ++ t
    /\ c_author_date <$> cs = Some <$> ts
    /\ c_committer_date <$> cs = Some <$> ts
    /\ ts `sublist_of` offered
    /\ Forall (fun c => exists a, a ∈ accounts
                                  /\ c_author_name c = username a
                                  /\ c_author_email c = email a) cs
    /\ (forall u, dict_get u r'.1
                  = (fun v => v + commits_by u cs) <$> dict_get u counts)
    /\ (forall u, commits_by u cs
                  <= Z.of_nat (times_selected u (config_names t)))
    /\ remotes s'.1 = remotes s.1 /\ pushed s'.1 = pushed s.1
    /\ master s'.1 = master s.1.

(** The remote alias and the url [main] builds for it from the primary
    identity's token, and the [set-url] command for them. *)
Definition origin_alias : string := "origin".

Definition origin_url (primary : Account) : string :=
  ("https://" ++ token primary ++ "@github.com/nanonkt001/MintLite.git")%string.

Definition published_set_url (primary : Account) : GitCmd :=
  RemoteSetUrl origin_alias (origin_url primary).

(** The repository after the publishing commands that follow the setting of
    the remote: [master] forced to the tip, the primary identity configured,
    both branches pushed. *)
Definition pushed_world (primary : Account) (w : World) : World :=
  mkWorld (files w) (index w) (head_tree w) (log w) (username primary)
    (email primary) (GIT_AUTHOR_DATE w) (GIT_COMMITTER_DATE w) (remotes w)
    (Some (length (log w)))
    (pushed w ++ [(origin_alias, "main:main"%string);
                  (origin_alias, "master:master"%string)])
    (trace w ++ [BranchForce "master" "main";
                 ConfigUserName (username primary);
                 ConfigUserEmail (email primary);
                 PushUpstream origin_alias "main:main";
                 Push origin_alias "master:master"]).

(** The repository after [git remote] and the command [c2] that left the
    remotes [r]. *)
Definition remote_world (c2 : GitCmd) (r : list (string * string)) (w : World)
  : World :=
  mkWorld (files w) (index w) (head_tree w) (log w) (user_name w) (user_email w)
    (GIT_AUTHOR_DATE w) (GIT_COMMITTER_DATE w) r (master w) (pushed w)
    (trace w ++ [RemoteList; c2]).

(** The windows of the phases follow one another: each starts before it
    ends, and none starts before the one before it has ended. *)
Fixpoint windows_ordered (phases : list Phase) : Prop :=
  match phases with
  | [] => True
  | (start, end_, _) :: rest =>
      start < end_
      /\ match rest with
         | [] => True
         | (start', _, _) :: _ => end_ <= start'
         end
      /\ windows_ordered rest
  end.

End Observe.

(** ** Sample inputs *)

Module Samples.
Import Time Random Scheduler Git Script.

Definition draws_0 : Rng := fun n => Z.of_nat (n * 7 + 3).
Definition draws_1 : Rng := fun n => 3 + 7 * Z.of_nat n.

(** A [random.seed] for the samples. *)
Definition seed_0 : Z -> Rng := fun n k => n + Z.of_nat k.

(** A fresh repository: nothing in the working tree, no commit, no remote. *)
Definition world_0 : World :=
  mkWorld ∅ ∅ ∅ [] "" "" None None [] None [] [].

(** A repository whose only remote alias is [origin-fork]. *)
Definition world_fork : World :=
  mkWorld ∅ ∅ ∅ [] "" "" None None
    [("origin-fork", "https://example.org/fork.git")]%string None [] [].

Definition alice : Account := mkAccount "alice" "alice@example.org" "t-alice".
Definition bob : Account := mkAccount "bob" "bob@example.org" "t-bob".
Definition primary : Account :=
  mkAccount "nanonkt001" "nanonkt001@example.org" "t-primary".

(** An action that writes one file, as the [write_file] actions of the
    phase tables do. *)
Definition touch (path content : string) : Action :=
  fun f g => (write_file path content f, g).

(** [n] one-letter paths: A, B, C, ... *)
Definition letters (n : nat) : list string :=
  map (fun i => String (ascii_of_nat (65 + i)) EmptyString) (seq 0 n).

(** A phase over the window from [start] to [end_] that writes one file
    per path. *)
Definition phase_at (start end_ : Z) (paths : list string) : Phase :=
  (start, end_, map (fun p => (("add " ++ p)%string, touch p "x")) paths).

(** Two phases whose windows follow one another. *)
Definition two_phases : list Phase :=
  [phase_at 0 10 ["A"; "B"; "C"]%string; phase_at 10 20 ["D"; "E"]%string].

(** One phase of [n] actions, each writing a file of its own. *)
Definition phase_of (n : nat) : Phase :=
  (0, 40, map (fun p => (("add " ++ p)%string, touch p "x")) (letters n)).

End Samples.

(** * Properties of the scheduler *)

Module SchedulerFacts.
Import Time Random Scheduler Observe Samples.

Lemma randint_range (a b : Z) (g : Rng) :
  a <= b -> a <= (randint a b g).1 <= b.
Proof.
  intros Hab. unfold randint; simpl.
  pose proof (Z.mod_pos_bound (g 0%nat) (b - a + 1) ltac:(lia)). lia.
Qed.

Lemma randint_same_draws (a b : Z) (g1 g2 : Rng) :
  same_draws g1 g2 ->
  (randint a b g1).1 = (randint a b g2).1
  /\ same_draws (randint a b g1).2 (randint a b g2).2.
Proof.
  intros H. unfold randint, advance; simpl. split.
  - by rewrite (H 0%nat).
  - intros n. apply H.
Qed.

Lemma jittered_case (end_dt current : datetime) (g : Rng) :
  jitter_case end_dt current (jittered end_dt current g).1.
Proof.
  unfold jittered.
  destruct (randint 9 20 g) as [h g1] eqn:Eh.
  destruct (randint 0 59 g1) as [m g2] eqn:Em.
  pose proof (randint_range 9 20 g ltac:(lia)) as Hh. rewrite Eh in Hh.
  pose proof (randint_range 0 59 g1 ltac:(lia)) as Hm. rewrite Em in Hm.
  simpl in Hh, Hm.
  destruct (Z.gtb_spec (current + hours h + minutes m) end_dt) as [Hgt | Hle].
  - destruct (randint 1 6 g2) as [back g3] eqn:Eb.
    pose proof (randint_range 1 6 g2 ltac:(lia)) as Hb. rewrite Eb in Hb.
    simpl in Hb. simpl. eapply jitter_clamped; eauto. lia.
  - simpl. eapply jitter_kept; eauto.
Qed.

Lemma jittered_same_draws (end_dt current : datetime) (g1 g2 : Rng) :
  same_draws g1 g2 ->
  (jittered end_dt current g1).1 = (jittered end_dt current g2).1
  /\ same_draws (jittered end_dt current g1).2 (jittered end_dt current g2).2.
Proof.
  intros H. unfold jittered.
  destruct (randint_same_draws 9 20 g1 g2 H) as [E1 S1].
  destruct (randint 9 20 g1) as [h g1'], (randint 9 20 g2) as [h' g2'].
  simpl in E1, S1. subst h'.
  destruct (randint_same_draws 0 59 g1' g2' S1) as [E2 S2].
  destruct (randint 0 59 g1') as [m g1''], (randint 0 59 g2') as [m' g2''].
  simpl in E2, S2. subst m'.
  destruct (current + hours h + minutes m >? end_dt); [|done].
  destruct (randint_same_draws 1 6 g1'' g2'' S2) as [E3 S3].
  destruct (randint 1 6 g1'') as [r g1'''], (randint 1 6 g2'') as [r' g2'''].
  simpl in *. by subst r'.
Qed.

Lemma dates_loop_length (n : nat) (end_dt current step : Z) (g : Rng) :
  length (dates_loop n end_dt current step g).1 = n.
Proof.
  revert current g. induction n as [|n IH]; intros current g; simpl; [done|].
  destruct (jittered end_dt current g) as [dt g1].
  specialize (IH (current + days step) g1).
  destruct (dates_loop n end_dt (current + days step) step g1) as [rest g2].
  simpl in *. by rewrite IH.
Qed.

Lemma dates_loop_same_draws (n : nat) (end_dt current step : Z) (g1 g2 : Rng) :
  same_draws g1 g2 ->
  (dates_loop n end_dt current step g1).1 = (dates_loop n end_dt current step g2).1
  /\ same_draws (dates_loop n end_dt current step g1).2
                (dates_loop n end_dt current step g2).2.
Proof.
  revert current g1 g2. induction n as [|n IH]; intros current g1 g2 H; simpl;
    [done|].
  destruct (jittered_same_draws end_dt current g1 g2 H) as [E S1].
  destruct (jittered end_dt current g1) as [dt g1'],
           (jittered end_dt current g2) as [dt' g2'].
  simpl in E, S1. subst dt'.
  destruct (IH (current + days step) g1' g2' S1) as [E' S2].
  destruct (dates_loop n end_dt (current + days step) step g1') as [r1 h1],
           (dates_loop n end_dt (current + days step) step g2') as [r2 h2].
  simpl in *. by subst r2.
Qed.

(** Inside a window of at least one day, every timestamp of the loop lies
    after the window's start and not after its end. *)
Lemma dates_loop_bounded (n : nat) (start_dt end_dt current step : Z) (g : Rng) :
  start_dt + days 1 <= end_dt -> start_dt + days 1 <= current -> 0 <= step ->
  Forall (fun t => start_dt < t <= end_dt)
         (dates_loop n end_dt current step g).1.
Proof.
  intros Hwin. revert current g.
  induction n as [|n IH]; intros current g Hcur Hstep; simpl; [constructor|].
  pose proof (jittered_case end_dt current g) as Hc.
  destruct (jittered end_dt current g) as [dt g1].
  specialize (IH (current + days step) g1).
  destruct (dates_loop n end_dt (current + days step) step g1) as [rest g2].
  simpl in *. constructor.
  - destruct Hc; unfold days, hours, minutes in *; lia.
  - apply IH; unfold days in *; lia.
Qed.

Lemma dates_between_length_nat (start end_ : Z) (n : nat) (g : Rng) :
  length (dates_between start end_ (Z.of_nat n) g).1 = n.
Proof.
  unfold dates_between. destruct (Z.leb_spec (Z.of_nat n) 0) as [H0|Hpos].
  - cbn. lia.
  - pose proof (dates_loop_length (Z.to_nat (Z.of_nat n)) (strptime end_)
                  (strptime start + days 1)
                  (Z.max 1 (timedelta_days (strptime end_ - strptime start)
                              / Z.of_nat n)) g) as Hl.
    destruct (dates_loop _ _ _ _ _) as [dates g']. cbn [fst] in *.
    rewrite merge_sort_Permutation, Hl. lia.
Qed.

Lemma strongly_sorted_adjacent (l : list Z) (i : nat) (a b : Z) :
  StronglySorted Z.le l -> l !! i = Some a -> l !! S i = Some b -> a <= b.
Proof.
  intros Hs. revert i. induction Hs as [|x l Hs IH Hall]; intros i Ha Hb; [done|].
  destruct i as [|i]; simpl in *.
  - injection Ha as <-. rewrite Forall_forall in Hall. apply Hall.
    eapply list_elem_of_lookup_2. exact Hb.
  - eauto.
Qed.

Lemma dates_between_sorted_gen (start end_ count : Z) (g : Rng) :
  StronglySorted Z.le (dates_between start end_ count g).1.
Proof.
  unfold dates_between. destruct (count <=? 0); [constructor|].
  destruct (dates_loop _ _ _ _ _) as [dates g']. simpl.
  apply StronglySorted_merge_sort; apply _.
Qed.

(** C1. For every start date, end date and count >= 2, the sequence that
    [dates_between] returns is in non-decreasing order: each timestamp is at
    most the one that follows it. *)
Theorem dates_between_monotonic (start end_ count : Z) (g : Rng)
    (i : nat) (a b : datetime) :
  2 <= count ->
  (dates_between start end_ count g).1 !! i = Some a ->
  (dates_between start end_ count g).1 !! S i = Some b ->
  a <= b.
Proof.
  intros _. apply strongly_sorted_adjacent, dates_between_sorted_gen.
Qed.

Lemma dates_between_monotonic_witness :
  2 <= 5
  /\ (dates_between 0 10 5 draws_0).1 !! 1%nat = Some 5184
  /\ (dates_between 0 10 5 draws_0).1 !! 2%nat = Some 8198
  /\ 5184 <= 8198.
Proof.
  split; [lia|]. split; [reflexivity|]. split; [reflexivity|].
  apply (dates_between_monotonic 0 10 5 draws_0 1 5184 8198);
    [lia | reflexivity | reflexivity].
Defined.

(** C2. In a window whose start date is strictly before its end date, for
    every count >= 1, every timestamp [t] that [dates_between] returns
    satisfies [start < t <= end]; and whenever the jittered timestamp of a
    step exceeds [end], the step yields [end] minus 1 to 6 hours, which is
    strictly inside the window. *)
Theorem dates_between_bounded (start end_ count : Z) (g : Rng) :
  start < end_ -> 1 <= count ->
  (forall t, t ∈ (dates_between start end_ count g).1 ->
             strptime start < t <= strptime end_)
  /\ (forall current g' h g1 m g2,
        randint 9 20 g' = (h, g1) -> randint 0 59 g1 = (m, g2) ->
        current + hours h + minutes m > strptime end_ ->
        exists back,
          1 <= back <= 6
          /\ (jittered (strptime end_) current g').1 = strptime end_ - hours back
          /\ strptime start < strptime end_ - hours back < strptime end_).
Proof.
  intros Hse Hc. split.
  - intros t. unfold dates_between.
    destruct (Z.leb_spec count 0) as [|_]; [lia|].
    pose proof (dates_loop_bounded (Z.to_nat count) (strptime start)
                  (strptime end_) (strptime start + days 1)
                  (Z.max 1 (timedelta_days (strptime end_ - strptime start) / count))
                  g) as Hb.
    destruct (dates_loop _ _ _ _ _) as [dates g']. simpl in *.
    rewrite merge_sort_Permutation. intros Hin.
    rewrite Forall_forall in Hb. apply Hb.
    + unfold strptime, days. lia.
    + lia.
    + lia.
    + done.
  - intros current g' h g1 m g2 Eh Em Hgt. unfold jittered. rewrite Eh, Em.
    destruct (Z.gtb_spec (current + hours h + minutes m) (strptime end_));
      [|lia].
    pose proof (randint_range 1 6 g2 ltac:(lia)) as Hb.
    destruct (randint 1 6 g2) as [back g3]. cbn [fst snd] in *.
    exists back. unfold strptime, days, hours in *. lia.
Qed.

Lemma dates_between_bounded_witness :
  0 < 1 /\ 1 <= 5
  /\ (forall t, t ∈ (dates_between 0 1 5 draws_0).1 ->
                strptime 0 < t <= strptime 1).
Proof.
  split; [lia|]. split; [lia|].
  apply (dates_between_bounded 0 1 5 draws_0); lia.
Defined.



(** C9. [dates_between] is a function of its arguments and of the state of
    the random source: from two generator states that yield the same draws,
    the same start, end and count give the same timestamps, and leave the
    generators again in states that yield the same draws. *)
Theorem dates_between_deterministic (start end_ count : Z) (g1 g2 : Rng) :
  same_draws g1 g2 ->
  (dates_between start end_ count g1).1 = (dates_between start end_ count g2).1
  /\ same_draws (dates_between start end_ count g1).2
                (dates_between start end_ count g2).2.
Proof.
  intros H. unfold dates_between. destruct (count <=? 0); [done|].
  destruct (dates_loop_same_draws (Z.to_nat count) (strptime end_)
              (strptime start + days 1)
              (Z.max 1 (timedelta_days (strptime end_ - strptime start) / count))
              g1 g2 H) as [E S].
  destruct (dates_loop _ _ _ _ g1) as [d1 h1], (dates_loop _ _ _ _ g2) as [d2 h2].
  simpl in *. by subst d2.
Qed.

Lemma dates_between_deterministic_witness :
  same_draws draws_0 draws_1
  /\ (dates_between 0 10 5 draws_0).1 = (dates_between 0 10 5 draws_1).1.
Proof.
  assert (H : same_draws draws_0 draws_1)
    by (intros n; unfold draws_0, draws_1; lia).
  split; [exact H|].
  apply (dates_between_deterministic 0 10 5 draws_0 draws_1 H).
Defined.

End SchedulerFacts.

(** * Properties of the commit loop, the check and the publishing order *)

Module ScriptFacts.
Import Time Random Scheduler Git Script Observe Samples.

Ltac step :=
  cbn [bind modify_world ret raise lift fst snd exec subprocess_run run
       set_git_author call_action Z.eqb
       set_files set_index set_user_name set_user_email set_author_date
       set_committer_date add_commit record_cmd set_remotes set_master
       add_pushed
       files index head_tree log user_name user_email GIT_AUTHOR_DATE
       GIT_COMMITTER_DATE remotes master pushed trace c_tree].

Lemma world_ext (w w' : World) :
  files w = files w' -> index w = index w' -> head_tree w = head_tree w' ->
  log w = log w' -> user_name w = user_name w' -> user_email w = user_email w' ->
  GIT_AUTHOR_DATE w = GIT_AUTHOR_DATE w' ->
  GIT_COMMITTER_DATE w = GIT_COMMITTER_DATE w' ->
  remotes w = remotes w' -> master w = master w' -> pushed w = pushed w' ->
  trace w = trace w' -> w = w'.
Proof. destruct w, w'; cbn; intros; by subst. Qed.

Ltac same_world :=
  apply world_ext; step; rewrite <- ?app_assoc; reflexivity.

(** *** The dictionary of counts *)

Lemma dict_get_set_same (k : string) (v : Z) (d : list (string * Z)) :
  dict_get k (dict_set k v d) = Some v.
Proof.
  induction d as [|[k' v'] d IH]; simpl.
  - by rewrite decide_True.
  - destruct (decide (k' = k)) as [->|Hne]; simpl.
    + by rewrite decide_True.
    + by rewrite decide_False.
Qed.

Lemma dict_get_set_other (k k' : string) (v : Z) (d : list (string * Z)) :
  k ≠ k' -> dict_get k' (dict_set k v d) = dict_get k' d.
Proof.
  intros Hne. induction d as [|[k0 v0] d IH]; simpl.
  - by rewrite decide_False.
  - destruct (decide (k0 = k)) as [->|Hk]; simpl.
    + by rewrite !decide_False.
    + destruct (decide (k0 = k')); [done|]. exact IH.
Qed.

Lemma dict_set_keeps_keys (k k' : string) (v : Z) (d : list (string * Z)) :
  is_Some (dict_get k' d) -> is_Some (dict_get k' (dict_set k v d)).
Proof.
  intros H. destruct (decide (k = k')) as [->|Hne].
  - rewrite dict_get_set_same. eauto.
  - by rewrite dict_get_set_other.
Qed.

Lemma initial_counts_keys (accounts : list Account) : keys_of accounts (initial_counts accounts).
Proof.
  unfold keys_of, initial_counts.
  assert (G : forall (l : list Account) d k,
             is_Some (dict_get k d) \/ k ∈ map username l ->
             is_Some (dict_get k
                        (fold_left (fun d a => dict_set (username a) 0 d) l d))).
  { induction l as [|a l IH]; intros d k [H|H]; simpl.
    - done.
    - by apply elem_of_nil in H.
    - apply IH. left. by apply dict_set_keeps_keys.
    - apply IH. simpl in H. apply elem_of_cons in H as [->|H].
      + left. rewrite dict_get_set_same. eauto.
      + by right. }
  intros a Ha. apply G. right. by apply list_elem_of_fmap_2.
Qed.

Lemma increment_keeps_keys (accounts : list Account) (user : string)
    (counts counts' : list (string * Z)) :
  keys_of accounts counts -> increment user counts = Ok counts' ->
  keys_of accounts counts'.
Proof.
  unfold increment. intros Hk Hi a Ha.
  destruct (dict_get user counts); [|done].
  injection Hi as <-. apply dict_set_keeps_keys, Hk, Ha.
Qed.

(** *** [commit_all] and one pass of the loop body *)

Lemma run_commit_eq (message : string) (w : World) (g : Rng) :
  index w ≠ head_tree w ->
  run (CommitM message) (w, g) =
  (Ok tt,
   (add_commit (mkCommit message (user_name w) (user_email w)
                  (GIT_AUTHOR_DATE w) (GIT_COMMITTER_DATE w) (index w))
      (record_cmd (CommitM message) w), g)).
Proof.
  intros NE. unfold run, bind, subprocess_run. cbn [fst snd exec].
  replace (index (record_cmd (CommitM message) w)) with (index w) by done.
  replace (head_tree (record_cmd (CommitM message) w)) with (head_tree w) by done.
  rewrite decide_False by done. reflexivity.
Qed.

Lemma commit_all_eq (message : string) (when : datetime) (name email : string)
    (w : World) (g : Rng) :
  commit_all message when name email (w, g) =
  if decide (files w = head_tree w)
  then (Ok false, (staged when name email w, g))
  else (Ok true, (committed message when name email w, g)).
Proof.
  unfold commit_all. step.
  destruct (decide (files w = head_tree w)) as [E|NE]; step.
  - do 2 f_equal. unfold staged. same_world.
  - unfold bind at 1. rewrite run_commit_eq by (step; done). step.
    do 2 f_equal. unfold committed. same_world.
Qed.

Lemma pick_author_ok (accounts : list Account) (i : nat) (a : Account) :
  accounts !! (i mod length accounts)%nat = Some a ->
  pick_author accounts i = Ok a.
Proof.
  unfold pick_author. intros H. destruct accounts as [|a0 l]; [done|].
  cbn [length]. cbn [length] in H. by rewrite H.
Qed.

Lemma pick_author_total (accounts : list Account) (i : nat) :
  (0 < length accounts)%nat ->
  exists a, accounts !! (i mod length accounts)%nat = Some a.
Proof.
  intros H. apply lookup_lt_is_Some_2. apply Nat.mod_upper_bound. lia.
Qed.

(** What one pass of the loop body does, once the author and the date of the
    action are known. *)
Lemma perform_eq (accounts : list Account) (dates : list datetime) (c_idx : nat)
    (message : string) (action : Action) (counts : list (string * Z))
    (idx : nat) (w : World) (g : Rng) (author : Account) (when : datetime) :
  accounts !! (idx mod length accounts)%nat = Some author ->
  dates !! c_idx = Some when ->
  perform accounts dates c_idx (message, action) (counts, idx) (w, g) =
  let w1 := set_files (action (files w) g).1 w in
  let g1 := (action (files w) g).2 in
  if decide ((action (files w) g).1 = head_tree w)
  then (Ok (counts, S idx),
        (staged when (username author) (email author) w1, g1))
  else match increment (username author) counts with
       | Ok counts' =>
           (Ok (counts', S idx),
            (committed message when (username author) (email author) w1, g1))
       | Raise e =>
           (Raise e,
            (committed message when (username author) (email author) w1, g1))
       end.
Proof.
  intros Ha Hd. unfold perform.
  unfold bind at 1, call_action. cbn [fst snd].
  destruct (action (files w) g) as [f g1] eqn:Ea. cbn [fst snd].
  rewrite (pick_author_ok _ _ _ Ha). unfold date_at. rewrite Hd.
  unfold bind at 1, lift at 1. unfold bind at 1, lift at 1.
  unfold bind at 1. rewrite commit_all_eq.
  replace (files (set_files f w)) with f by done.
  replace (head_tree (set_files f w)) with (head_tree w) by done.
  destruct (decide (f = head_tree w)); [reflexivity|].
  unfold bind, lift. destruct (increment _ _); reflexivity.
Qed.

(** *** The loops *)

Lemma loop_post_bind (accounts : list Account) (idx n n' : nat) (s : State)
    (m : M Rotation) (k : Rotation -> M Rotation) :
  loop_post accounts idx n s (m s) ->
  (forall counts' s', keys_of accounts counts' ->
     loop_post accounts (idx + n) n' s' (k (counts', (idx + n)%nat) s')) ->
  loop_post accounts idx (n + n') s (bind m k s).
Proof.
  intros (counts1 & s1 & t1 & E1 & K1 & T1 & P1 & R1) Hk.
  destruct (Hk counts1 s1 K1) as (counts2 & s2 & t2 & E2 & K2 & T2 & P2 & R2).
  exists counts2, s2, (t1 ++ t2). unfold bind. rewrite E1, E2.
  split; [by rewrite Nat.add_assoc|]. split; [done|].
  split; [by rewrite T2, T1, app_assoc|].
  split; [by apply Forall_app|].
  unfold rotated, config_names in *. rewrite omap_app, seq_app.
  by apply Forall2_app.
Qed.

Lemma loop_post_ret (accounts : list Account) (idx : nat) (counts : list (string * Z))
    (s : State) :
  keys_of accounts counts ->
  loop_post accounts idx 0 s (ret (counts, idx) s).
Proof.
  intros K. exists counts, s, []. rewrite Nat.add_0_r, app_nil_r.
  repeat split; [done|constructor|constructor].
Qed.

Lemma perform_post (accounts : list Account) (dates : list datetime)
    (c_idx : nat) (commit : string * Action) (counts : list (string * Z))
    (idx : nat) (s : State) :
  (0 < length accounts)%nat -> (c_idx < length dates)%nat ->
  keys_of accounts counts ->
  loop_post accounts idx 1 s (perform accounts dates c_idx commit (counts, idx) s).
Proof.
  intros Hm Hd K. destruct commit as [message action], s as [w g].
  destruct (pick_author_total accounts idx Hm) as [author Ha].
  destruct (lookup_lt_is_Some_2 dates c_idx Hd) as [when Hw].
  rewrite (perform_eq _ _ _ _ _ _ _ _ _ _ _ Ha Hw). cbn zeta.
  assert (Hrot : forall t',
            config_names t' = [] ->
            rotated accounts idx 1
              (config_names (ConfigUserName (username author)
                               :: ConfigUserEmail (email author)
                               :: AddAll :: DiffCachedQuiet :: t'))).
  { intros t' Ht. unfold rotated, config_names in *.
    cbn [omap list_omap seq]. rewrite Ht.
    constructor; [eauto|constructor]. }
  destruct (decide _) as [E|NE].
  - eexists counts, _, _. rewrite Nat.add_1_r.
    split; [reflexivity|]. split; [done|].
    split; [destruct w; reflexivity|]. split; [by repeat constructor|].
    by apply Hrot.
  - assert (Hin : author ∈ accounts) by (eapply list_elem_of_lookup_2; eauto).
    destruct (K author Hin) as [c Hc].
    pose proof (increment_keeps_keys accounts (username author) counts) as K'.
    unfold increment in *. rewrite Hc in *.
    eexists _, _, _. rewrite Nat.add_1_r.
    split; [reflexivity|]. split; [by apply K'|].
    split; [destruct w; reflexivity|]. split; [by repeat constructor|].
    by apply Hrot.
Qed.

Lemma perform_all_post (accounts : list Account) (dates : list datetime)
    (commits : list (string * Action)) :
  forall (c_idx : nat) (counts : list (string * Z)) (idx : nat) (s : State),
    (0 < length accounts)%nat -> (c_idx + length commits <= length dates)%nat ->
    keys_of accounts counts ->
    loop_post accounts idx (length commits) s
      (perform_all accounts dates c_idx commits (counts, idx) s).
Proof.
  induction commits as [|commit rest IH]; intros c_idx counts idx s Hm Hd K.
  - by apply loop_post_ret.
  - cbn [perform_all length]. apply (loop_post_bind accounts idx 1 (length rest)).
    + apply perform_post; [done| |done]. cbn [length] in Hd. lia.
    + intros counts' s' K'. apply IH; [done| |done]. cbn [length] in Hd. lia.
Qed.

Lemma perform_phases_post (accounts : list Account)
    (zipped : list (Phase * list datetime)) :
  forall (counts : list (string * Z)) (idx : nat) (s : State),
    (0 < length accounts)%nat ->
    Forall (fun pd : Phase * list datetime => length pd.1.2 = length pd.2) zipped ->
    keys_of accounts counts ->
    loop_post accounts idx (total_actions zipped.*1) s
      (perform_phases accounts zipped (counts, idx) s).
Proof.
  induction zipped as [|[[[start end_] commits] dates] rest IH];
    intros counts idx s Hm Hl K.
  - by apply loop_post_ret.
  - cbn [perform_phases]. unfold total_actions. cbn [fmap list_fmap map sum_list fst snd].
    inversion Hl as [|? ? Hhd Htl]; subst. cbn [fst snd] in Hhd.
    apply loop_post_bind.
    + apply perform_all_post; [done| |done]. lia.
    + intros counts' s' K'. by apply IH.
Qed.

(** *** The schedule of the phases *)

Lemma compute_phase_dates_post (phases : list Phase) :
  forall (w : World) (g : Rng),
  exists ds g',
    compute_phase_dates phases (w, g) = (Ok ds, (w, g'))
    /\ Forall2 (fun (p : Phase) d => length p.2 = length d) phases ds.
Proof.
  induction phases as [|[[start end_] commits] rest IH]; intros w g.
  - exists [], g. split; [reflexivity|constructor].
  - cbn [compute_phase_dates]. unfold bind at 1, call_dates_between. cbn [fst snd].
    pose proof (SchedulerFacts.dates_between_length_nat start end_
                  (length commits) g) as Hl.
    destruct (dates_between _ _ _ g) as [d g1]. cbn [fst] in Hl.
    destruct (IH w g1) as (ds & g' & E & F).
    exists (d :: ds), g'. unfold bind. rewrite E. split; [reflexivity|].
    constructor; [done|done].
Qed.

Lemma zip_lengths (phases : list Phase) (ds : list (list datetime)) :
  Forall2 (fun (p : Phase) d => length p.2 = length d) phases ds ->
  Forall (fun pd : Phase * list datetime => length pd.1.2 = length pd.2)
         (zip phases ds)
  /\ (zip phases ds).*1 = phases.
Proof.
  induction 1 as [|p d phases ds Hpd _ [IH1 IH2]]; cbn.
  - split; [constructor|done].
  - split; [by constructor|by f_equal].
Qed.

(** *** Reading the pool *)

Lemma read_accounts_eq (rows : list Account) :
  read_accounts rows =
  if (length rows <? 2)%nat
  then Raise (RuntimeError "Need at least two accounts to rotate contributors.")
  else Ok rows.
Proof.
  unfold read_accounts.
  assert (E : map (fun row => mkAccount (username row) (email row) (token row))
                rows = rows).
  { induction rows as [|[u e t] rows IH]; cbn; [done|]. by rewrite IH. }
  by rewrite E.
Qed.

Lemma ensure_initial_gitignore_eq (w : World) (g : Rng) :
  ensure_initial_gitignore (w, g) = (Ok tt, (ensured w, g)).
Proof. reflexivity. Qed.

Lemma trace_ensured (w : World) : trace (ensured w) = trace w.
Proof. unfold ensured. destruct (decide _); [done|]. by destruct w. Qed.

(** With fewer than two rows the run stops in [read_accounts]. *)
Lemma commit_phases_too_few (seed : Z -> Rng) (phases : list Phase)
    (rows : list Account) (w : World) (g : Rng) :
  (length rows < 2)%nat ->
  commit_phases seed phases rows (w, g) =
  (Raise (RuntimeError "Need at least two accounts to rotate contributors."),
   (ensured w, seed 1337)).
Proof.
  intros H. unfold commit_phases, random_seed.
  unfold bind at 1. cbn [fst snd]. unfold bind at 1.
  rewrite ensure_initial_gitignore_eq. unfold bind at 1, lift.
  rewrite read_accounts_eq.
  destruct (Nat.ltb_spec (length rows) 2); [done|lia].
Qed.

(** With at least two rows the commit loops run to their end. *)
Lemma commit_phases_post (seed : Z -> Rng) (phases : list Phase)
    (rows : list Account) (s : State) :
  (2 <= length rows)%nat ->
  exists counts s' t,
    commit_phases seed phases rows s = (Ok (rows, counts), s')
    /\ keys_of rows counts
    /\ trace s'.1 = trace s.1 ++ t
    /\ Forall (fun c => is_publish c = false) t
    /\ rotated rows 0 (total_actions phases) (config_names t).
Proof.
  intros H. destruct s as [w g]. unfold commit_phases, random_seed.
  unfold bind at 1. cbn [fst snd]. unfold bind at 1.
  rewrite ensure_initial_gitignore_eq. unfold bind at 1, lift.
  rewrite read_accounts_eq.
  destruct (Nat.ltb_spec (length rows) 2); [lia|].
  destruct (compute_phase_dates_post phases (ensured w) (seed 1337))
    as (ds & g' & E & F).
  unfold bind at 1. rewrite E.
  destruct (zip_lengths phases ds F) as [Z1 Z2].
  destruct (perform_phases_post rows (zip phases ds) (initial_counts rows) 0%nat
              (ensured w, g') ltac:(lia) Z1 (initial_counts_keys rows))
    as (counts & s' & t & E' & K & T & P & R).
  rewrite Z2 in R. cbn [Nat.add] in E'.
  exists counts, s', t. unfold bind. rewrite E'. cbn [fst snd ret].
  split; [reflexivity|]. split; [done|].
  split; [by rewrite T; cbn [fst]; rewrite trace_ensured|]. done.
Qed.

(** *** Counting the selections *)



(** *** The check *)

Lemma check_counts_ok_iff (items : list (string * Z)) :
  check_counts items = Ok tt <-> Forall (fun uc => 13 < uc.2) items.
Proof.
  induction items as [|[user cnt] rest IH]; cbn [check_counts].
  - split; [constructor|done].
  - destruct (Z.leb_spec cnt 13) as [Hle|Hgt].
    + split; [done|]. intros H. inversion H; subst. cbn in *. lia.
    + rewrite IH. split; [by constructor|]. intros H. by inversion H.
Qed.

Lemma check_counts_first (pre post : list (string * Z)) (user : string) (cnt : Z) :
  Forall (fun uc => 13 < uc.2) pre -> cnt <= 13 ->
  check_counts (pre ++ (user, cnt) :: post)
  = Raise (RuntimeError (violation user cnt)).
Proof.
  intros Hpre Hc. induction Hpre as [|[u c] pre Hu _ IH]; cbn [check_counts app].
  - by destruct (Z.leb_spec cnt 13); [|lia].
  - cbn in Hu. by destruct (Z.leb_spec c 13); [lia|].
Qed.

Lemma first_offender (items : list (string * Z)) :
  (exists uc, uc ∈ items /\ uc.2 <= 13) ->
  exists pre user cnt post,
    items = pre ++ (user, cnt) :: post
    /\ Forall (fun uc => 13 < uc.2) pre /\ cnt <= 13.
Proof.
  induction items as [|[u c] rest IH]; intros (uc & Hin & Hle).
  - by apply elem_of_nil in Hin.
  - destruct (Z.le_gt_cases c 13) as [Hc|Hc].
    + exists [], u, c, rest. by repeat split.
    + apply elem_of_cons in Hin as [->|Hin]; [cbn in Hle; lia|].
      destruct IH as (pre & user & cnt & post & -> & Hpre & Hcnt); [eauto|].
      exists ((u, c) :: pre), user, cnt, post.
      split; [done|]. split; [constructor; [cbn; lia|done]|done].
Qed.

(** C5. The check passes exactly when every count is strictly greater than
    13.  When some identity's count is 13 or less, the check raises the
    fatal error that names the first such identity of the map, in its order,
    and that identity's count; a count equal to 13 is a violation. *)
Theorem check_counts_strict (items : list (string * Z)) :
  (check_counts items = Ok tt <-> Forall (fun uc => 13 < uc.2) items)
  /\ (forall pre user cnt post,
        items = pre ++ (user, cnt) :: post ->
        Forall (fun uc => 13 < uc.2) pre -> cnt <= 13 ->
        check_counts items = Raise (RuntimeError (violation user cnt)))
  /\ ((exists uc, uc ∈ items /\ uc.2 <= 13) ->
      exists user cnt,
        (user, cnt) ∈ items /\ cnt <= 13
        /\ check_counts items = Raise (RuntimeError (violation user cnt)))
  /\ (forall user,
        check_counts [(user, 13)] = Raise (RuntimeError (violation user 13))).
Proof.
  split; [apply check_counts_ok_iff|]. split; [|split].
  - intros pre user cnt post -> Hpre Hc. by apply check_counts_first.
  - intros H. destruct (first_offender items H)
      as (pre & user & cnt & post & -> & Hpre & Hc).
    exists user, cnt. split; [|split; [done|by apply check_counts_first]].
    apply elem_of_app. right. apply elem_of_cons. by left.
  - intros user. reflexivity.
Qed.

(** *** Skipping and committing *)

(** C4. When an action leaves the tracked content equal to the last
    commit, nothing is staged: [commit_all] returns false, no commit is
    created and no counter changes.  When an action changes the content and
    running it again reproduces that content, the two runs in a row create
    exactly one commit, by the identity of the first run, whose counter is the
    only one incremented, once. *)
Theorem skip_when_nothing_staged (accounts : list Account)
    (dates : list datetime) (c_idx : nat) (message : string) (action : Action)
    (counts : list (string * Z)) (idx : nat) (w : World) (g : Rng)
    (author : Account) (when : datetime) :
  accounts !! (idx mod length accounts)%nat = Some author ->
  dates !! c_idx = Some when ->
  let f := (action (files w) g).1 in
  let g1 := (action (files w) g).2 in
  (f = head_tree w ->
     (commit_all message when (username author) (email author)
        (set_files f w, g1)).1 = Ok false
     /\ exists s',
          perform accounts dates c_idx (message, action) (counts, idx) (w, g)
          = (Ok (counts, S idx), s')
          /\ log s'.1 = log w /\ head_tree s'.1 = head_tree w)
  /\ (f <> head_tree w -> (action f g1).1 = f ->
      forall (author2 : Account) (when2 : datetime) (c : Z),
        accounts !! (S idx mod length accounts)%nat = Some author2 ->
        dates !! S c_idx = Some when2 ->
        dict_get (username author) counts = Some c ->
        exists s2,
          perform_all accounts dates c_idx [(message, action); (message, action)]
            (counts, idx) (w, g)
          = (Ok (dict_set (username author) (c + 1) counts, S (S idx)), s2)
          /\ log s2.1
             = log w ++ [mkCommit message (username author) (email author)
                           (Some when) (Some when) f]).
Proof.
  intros Ha Hd f g1. split.
  - intros Hf. split.
    + rewrite commit_all_eq. cbn [files head_tree set_files].
      by rewrite decide_True.
    + rewrite (perform_eq _ _ _ _ _ _ _ _ _ _ _ Ha Hd). cbn zeta.
      fold f g1. rewrite decide_True by done.
      eexists. split; [reflexivity|]. by split.
  - intros Hf Hre author2 when2 c Ha2 Hd2 Hc.
    cbn [perform_all]. unfold bind at 1.
    rewrite (perform_eq _ _ _ _ _ _ _ _ _ _ _ Ha Hd). cbn zeta.
    fold f g1. rewrite decide_False by done.
    unfold increment. rewrite Hc.
    unfold bind at 1.
    rewrite (perform_eq _ _ _ _ _ _ _ _ _ _ _ Ha2 Hd2). cbn zeta.
    cbn [files head_tree committed set_files]. rewrite Hre.
    rewrite decide_True by done.
    eexists. split; [reflexivity|]. reflexivity.
Qed.

Lemma skip_when_nothing_staged_witness :
  [alice; bob] !! (0 mod length [alice; bob])%nat = Some alice
  /\ [100; 200] !! 0%nat = Some 100
  /\ exists s2,
       perform_all [alice; bob] [100; 200] 0
         [("add A"%string, touch "A" "x"); ("add A"%string, touch "A" "x")]
         (initial_counts [alice; bob], 0%nat) (world_0, draws_0)
       = (Ok (dict_set "alice" (0 + 1) (initial_counts [alice; bob]), 2%nat), s2)
       /\ log s2.1
          = [mkCommit "add A" "alice" "alice@example.org" (Some 100) (Some 100)
               (write_file "A" "x" ∅)].
Proof.
  split; [reflexivity|]. split; [reflexivity|].
  pose proof (skip_when_nothing_staged [alice; bob] [100; 200] 0 "add A"
                (touch "A" "x") (initial_counts [alice; bob]) 0 world_0 draws_0
                alice 100 eq_refl eq_refl) as H.
  cbn zeta in H. destruct H as [_ H].
  apply (H ltac:(by apply insert_non_empty) ltac:(by apply insert_insert_eq)
           bob 200 0 eq_refl eq_refl eq_refl).
Defined.

(** *** Rotation *)

Lemma new_cmds_app (s s' : State) (t : list GitCmd) :
  trace s'.1 = trace s.1 ++ t -> new_cmds s s' = t.
Proof. unfold new_cmds. intros ->. by rewrite drop_app_length. Qed.




(** *** The order of check and publishing *)

Lemma main_eq (seed : Z -> Rng) (phases : list Phase) (rows : list Account)
    (s : State) :
  main seed phases rows s =
  match commit_phases seed phases rows s with
  | (Ok ac, s1) =>
      match check_counts ac.2 with
      | Ok _ => publish ac.1 s1
      | Raise e => (Raise e, s1)
      end
  | (Raise e, s1) => (Raise e, s1)
  end.
Proof.
  unfold main. unfold bind at 1.
  destruct (commit_phases seed phases rows s) as [[ac|e] s1]; [|done].
  unfold bind, lift. by destruct (check_counts ac.2).
Qed.

Lemma new_cmds_refl_like (s s' : State) :
  trace s'.1 = trace s.1 -> new_cmds s s' = [].
Proof. unfold new_cmds. intros ->. by rewrite drop_all. Qed.

(** C8. Every remote or push command of a run is issued by the publishing
    step, and that step is entered only from the state in which the commit
    loops ended and the check has passed, that is with every identity's count
    above 13; up to that state no such command was run.  So nothing is
    published, and no remote is set, in a run where some count is 13 or
    less. *)
Theorem publish_only_after_check (seed : Z -> Rng) (phases : list Phase)
    (rows : list Account) (s : State) (c : GitCmd) :
  c ∈ new_cmds s (main seed phases rows s).2 -> is_publish c = true ->
  exists counts s1,
    commit_phases seed phases rows s = (Ok (rows, counts), s1)
    /\ check_counts counts = Ok tt
    /\ Forall (fun uc => 13 < uc.2) counts
    /\ Forall (fun c' => is_publish c' = false) (new_cmds s s1)
    /\ main seed phases rows s = publish rows s1.
Proof.
  intros Hin Hpub. rewrite main_eq in Hin. rewrite main_eq.
  destruct (Nat.lt_ge_cases (length rows) 2) as [Hfew|Hm].
  - destruct s as [w g]. rewrite commit_phases_too_few in Hin by done.
    rewrite new_cmds_refl_like in Hin by apply trace_ensured.
    by apply elem_of_nil in Hin.
  - destruct (commit_phases_post seed phases rows s Hm)
      as (counts & s1 & t & E & _ & T & P & _).
    rewrite E in *. cbn [fst snd] in *.
    pose proof (new_cmds_app _ _ _ T) as Hn.
    destruct (check_counts counts) as [[]|e] eqn:Hchk.
    + exists counts, s1. split; [done|]. split; [done|].
      split; [by apply check_counts_ok_iff|]. split; [by rewrite Hn|done].
    + cbn [snd] in Hin. rewrite Hn in Hin.
      rewrite Forall_forall in P. specialize (P c Hin). congruence.
Qed.

Lemma publish_only_after_check_witness :
  Push "origin" "master:master"
    ∈ new_cmds (world_0, draws_0)
        (main seed_0 [phase_of 30] [primary; bob] (world_0, draws_0)).2
  /\ is_publish (Push "origin" "master:master") = true
  /\ exists counts s1,
       commit_phases seed_0 [phase_of 30] [primary; bob] (world_0, draws_0)
       = (Ok ([primary; bob], counts), s1)
       /\ Forall (fun uc => 13 < uc.2) counts.
Proof.
  assert (Hin : Push "origin" "master:master"
                  ∈ new_cmds (world_0, draws_0)
                      (main seed_0 [phase_of 30] [primary; bob]
                         (world_0, draws_0)).2).
  { apply (list_elem_of_lookup_2 _ 156). vm_compute. reflexivity. }
  split; [exact Hin|]. split; [reflexivity|].
  destruct (publish_only_after_check seed_0 [phase_of 30] [primary; bob]
              (world_0, draws_0) (Push "origin" "master:master") Hin eq_refl)
    as (counts & s1 & E & _ & F & _).
  exists counts, s1. split; [exact E|exact F].
Defined.

(** C10. Once the check has passed, a pool without the user name
    [nanonkt001] ends the run with [StopIteration] in the very state the
    commit loops left: every commit is there, and no remote or push command
    has been run. *)
Theorem missing_primary_aborts (seed : Z -> Rng) (phases : list Phase)
    (rows : list Account) (s : State) (accounts : list Account)
    (counts : list (string * Z)) :
  (commit_phases seed phases rows s).1 = Ok (accounts, counts) ->
  check_counts counts = Ok tt ->
  (forall a, a ∈ rows -> username a <> "nanonkt001"%string) ->
  main seed phases rows s
  = (Raise StopIteration, (commit_phases seed phases rows s).2)
  /\ Forall (fun c => is_publish c = false)
            (new_cmds s (commit_phases seed phases rows s).2).
Proof.
  intros E Hchk Hno. rewrite main_eq.
  destruct (Nat.lt_ge_cases (length rows) 2) as [Hfew|Hm].
  - destruct s as [w g]. by rewrite commit_phases_too_few in E by done.
  - destruct (commit_phases_post seed phases rows s Hm)
      as (counts' & s1 & t & E' & _ & T & P & _).
    rewrite E' in *. cbn [fst snd] in *. injection E as <- <-.
    rewrite Hchk. split; [|by rewrite (new_cmds_app _ _ _ T)].
    unfold publish, bind at 1, lift. unfold find_primary.
    assert (Hf : List.find
                   (fun a => bool_decide (username a = "nanonkt001"%string))
                   rows = None).
    { clear -Hno. induction rows as [|a rows IH]; [done|]. cbn [List.find].
      rewrite bool_decide_eq_false_2
        by (apply Hno; apply elem_of_cons; by left).
      apply IH. intros a' Ha'. apply Hno. apply elem_of_cons. by right. }
    by rewrite Hf.
Qed.

Lemma missing_primary_aborts_witness :
  (commit_phases seed_0 [phase_of 30] [alice; bob] (world_0, draws_0)).1
  = Ok ([alice; bob], [("alice"%string, 15); ("bob"%string, 15)])
  /\ check_counts [("alice"%string, 15); ("bob"%string, 15)] = Ok tt
  /\ main seed_0 [phase_of 30] [alice; bob] (world_0, draws_0)
     = (Raise StopIteration,
        (commit_phases seed_0 [phase_of 30] [alice; bob] (world_0, draws_0)).2).
Proof.
  assert (E : (commit_phases seed_0 [phase_of 30] [alice; bob]
                 (world_0, draws_0)).1
              = Ok ([alice; bob], [("alice"%string, 15); ("bob"%string, 15)]))
    by (vm_compute; reflexivity).
  split; [exact E|]. split; [reflexivity|].
  apply (missing_primary_aborts seed_0 [phase_of 30] [alice; bob]
           (world_0, draws_0) [alice; bob]
           [("alice"%string, 15); ("bob"%string, 15)] E eq_refl).
  intros a Ha. apply list_elem_of_In in Ha.
  destruct Ha as [<-|[<-|[]]]; cbn [username alice bob]; intros [=].
Defined.

(** *** Too few identities *)

(** C7, as amended.  With fewer than two identities the run ends in the
    configuration error of [read_accounts] before any action is invoked and
    before any git command is run; what has happened by then is the seeding
    of [random] and [ensure_initial_gitignore], which leaves the repository
    as it is when [.gitignore] exists and writes the default [.gitignore]
    into the working tree when it does not. *)
Theorem too_few_accounts_fail_fast (seed : Z -> Rng) (phases : list Phase)
    (rows : list Account) (w : World) (g : Rng) :
  (length rows < 2)%nat ->
  main seed phases rows (w, g)
  = (Raise (RuntimeError "Need at least two accounts to rotate contributors."),
     (ensured w, seed 1337))
  /\ (is_Some (files w !! ".gitignore"%string) -> ensured w = w)
  /\ (files w !! ".gitignore"%string = None ->
      ensured w
      = set_files (<[".gitignore"%string := default_gitignore]> (files w)) w)
  /\ trace (ensured w) = trace w
  /\ log (ensured w) = log w
  /\ index (ensured w) = index w
  /\ head_tree (ensured w) = head_tree w.
Proof.
  intros H. rewrite main_eq, commit_phases_too_few by done.
  split; [done|]. unfold ensured.
  destruct (decide (is_Some (files w !! ".gitignore"%string))) as [Hs|Hn].
  - repeat split; try done. intros Hnone. rewrite Hnone in Hs.
    by destruct Hs.
  - repeat split; done.
Qed.

Lemma too_few_accounts_fail_fast_witness :
  (length [alice] < 2)%nat
  /\ main seed_0 [phase_of 30] [alice] (world_0, draws_0)
     = (Raise (RuntimeError "Need at least two accounts to rotate contributors."),
        (ensured world_0, seed_0 1337)).
Proof.
  split; [cbn; lia|].
  apply (too_few_accounts_fail_fast seed_0 [phase_of 30] [alice] world_0 draws_0).
  cbn; lia.
Defined.

(** C7, as stated, fails: in a repository without [.gitignore] the file is
    written into the working tree before the pool is read, so the working
    tree has changed when the configuration error comes. *)
Lemma fail_fast_after_gitignore_write :
  ~ (forall (seed : Z -> Rng) (phases : list Phase) (rows : list Account)
            (s : State),
       (length rows < 2)%nat ->
       (exists msg, (main seed phases rows s).1 = Raise (RuntimeError msg))
       /\ files (main seed phases rows s).2.1 = files s.1).
Proof.
  intros H.
  destruct (H seed_0 [phase_of 30] [alice] (world_0, draws_0) ltac:(cbn; lia))
    as [_ Hf].
  apply (f_equal (fun m : gmap string string => m !! ".gitignore"%string)) in Hf.
  vm_compute in Hf. discriminate.
Qed.

End ScriptFacts.

(** * Further properties of the scheduler *)

Module SchedulerEdges.
Import Time Random Scheduler Observe Samples.

Lemma dates_loop_forall (P : datetime -> Prop) (end_dt step : Z) (n : nat) :
  forall (d : Z) (g : Rng),
    (forall (d' : Z) (g' : Rng), d <= d' -> P (jittered end_dt (days d') g').1) ->
    0 <= step ->
    Forall P (dates_loop n end_dt (days d) step g).1.
Proof.
  induction n as [|n IH]; intros d g HP Hstep; cbn [dates_loop]; [constructor|].
  pose proof (HP d g ltac:(lia)) as Hd.
  destruct (jittered end_dt (days d) g) as [dt g1]. cbn [fst] in Hd.
  replace (days d + days step) with (days (d + step)) by (unfold days; lia).
  specialize (IH (d + step) g1).
  destruct (dates_loop n end_dt (days (d + step)) step g1) as [rest g2].
  cbn [fst] in *. constructor; [done|].
  apply IH; [|done]. intros d' g' Hd'. apply HP. lia.
Qed.

Lemma dates_between_forall (P : datetime -> Prop) (start end_ count : Z) (g : Rng) :
  (forall (d' : Z) (g' : Rng),
     start + 1 <= d' -> P (jittered (strptime end_) (days d') g').1) ->
  Forall P (dates_between start end_ count g).1.
Proof.
  intros HP. unfold dates_between. destruct (count <=? 0); [constructor|].
  pose proof (dates_loop_forall P (strptime end_)
                (Z.max 1 (timedelta_days (strptime end_ - strptime start) / count))
                (Z.to_nat count) (start + 1) g HP ltac:(lia)) as H.
  replace (strptime start + days 1) with (days (start + 1))
    by (unfold strptime, days; lia).
  destruct (dates_loop _ _ _ _ _) as [dates g']. cbn [fst] in *.
  by rewrite merge_sort_Permutation.
Qed.

(** X1.  Every timestamp falls between 09:00 and 23:00 of its day, so none is a
    midnight: the end of the window itself is never returned. *)
Theorem dates_between_time_of_day (start end_ count : Z) (g : Rng) (t : datetime) :
  t ∈ (dates_between start end_ count g).1 ->
  hours 9 <= t mod days 1 <= hours 23 /\ t <> strptime end_.
Proof.
  intros Hin.
  assert (H : Forall (fun t => hours 9 <= t mod days 1 <= hours 23)
                (dates_between start end_ count g).1).
  { apply dates_between_forall. intros d' g' _.
    destruct (SchedulerFacts.jittered_case (strptime end_) (days d') g')
      as [h m Hh Hm -> _|h m back _ _ _ Hb ->];
      unfold strptime, days, hours, minutes in *.
    - replace (d' * 1440 + h * 60 + m) with (h * 60 + m + d' * 1440) by lia.
      rewrite Z.mod_add by lia. rewrite Z.mod_small; lia.
    - replace (end_ * 1440 - back * 60)
        with (1440 - back * 60 + (end_ - 1) * 1440) by lia.
      rewrite Z.mod_add by lia. rewrite Z.mod_small; lia. }
  rewrite Forall_forall in H. specialize (H t Hin). split; [done|].
  intros ->. unfold strptime, days, hours in H.
  rewrite Z.mul_1_l, Z.mod_mul in H by lia. lia.
Qed.

Lemma dates_between_time_of_day_witness :
  5184 ∈ (dates_between 0 10 5 draws_0).1
  /\ hours 9 <= 5184 mod days 1 <= hours 23 /\ 5184 <> strptime 10.
Proof.
  assert (H : 5184 ∈ (dates_between 0 10 5 draws_0).1).
  { apply (list_elem_of_lookup_2 _ 1). reflexivity. }
  split; [exact H|].
  exact (dates_between_time_of_day 0 10 5 draws_0 5184 H).
Defined.

(** X2.  In a window of one day or less (the end date is at most the day after
    the start date) every step overshoots the end, so every timestamp is the
    end minus one to six hours. *)
Theorem dates_between_short_window (start end_ count : Z) (g : Rng) (t : datetime) :
  end_ <= start + 1 ->
  t ∈ (dates_between start end_ count g).1 ->
  exists back, 1 <= back <= 6 /\ t = strptime end_ - hours back.
Proof.
  intros Hw Hin.
  assert (H : Forall (fun t => exists back,
                        1 <= back <= 6 /\ t = strptime end_ - hours back)
                (dates_between start end_ count g).1).
  { apply dates_between_forall. intros d' g' Hd'.
    destruct (SchedulerFacts.jittered_case (strptime end_) (days d') g')
      as [h m Hh Hm -> Hle|h m back _ _ _ Hb ->]; [|eauto].
    unfold strptime, days, hours, minutes in *. lia. }
  rewrite Forall_forall in H. by apply H.
Qed.

Lemma dates_between_short_window_witness :
  1 <= 0 + 1
  /\ 1080 ∈ (dates_between 0 1 5 draws_0).1
  /\ exists back, 1 <= back <= 6 /\ 1080 = strptime 1 - hours back.
Proof.
  assert (H : 1080 ∈ (dates_between 0 1 5 draws_0).1).
  { apply (list_elem_of_lookup_2 _ 0). reflexivity. }
  split; [lia|]. split; [exact H|].
  exact (dates_between_short_window 0 1 5 draws_0 1080 ltac:(lia) H).
Defined.

Lemma total_days_eq (start end_ : Z) :
  timedelta_days (strptime end_ - strptime start) = end_ - start.
Proof.
  unfold timedelta_days, strptime, days.
  replace (end_ * 1440 - start * 1440) with ((end_ - start) * 1440) by lia.
  apply Z.div_mul. lia.
Qed.

(** When the last step's day still ends before [end_dt], no step is clamped:
    step [i] lands on its own day, [i] steps after the first one. *)
Lemma dates_loop_fits (end_dt step : Z) (n : nat) :
  forall (d : Z) (g : Rng),
    1 <= step ->
    days (d + step * (Z.of_nat n - 1)) + hours 20 + minutes 59 <= end_dt ->
    (forall (i : nat) (t : datetime),
       (dates_loop n end_dt (days d) step g).1 !! i = Some t ->
       exists h m, 9 <= h <= 20 /\ 0 <= m <= 59
                   /\ t = days (d + step * Z.of_nat i) + hours h + minutes m)
    /\ StronglySorted Z.le (dates_loop n end_dt (days d) step g).1
    /\ Forall (fun t => days d + hours 9 <= t)
              (dates_loop n end_dt (days d) step g).1.
Proof.
  induction n as [|n IH]; intros d g Hstep Hfit; cbn [dates_loop].
  { split; [intros i t H; by destruct i|]. split; constructor. }
  destruct (SchedulerFacts.jittered_case end_dt (days d) g)
    as [h m Hh Hm Ht _|h m back Hh Hm Hgt _ _].
  2: { exfalso. unfold days, hours, minutes in *. nia. }
  destruct (jittered end_dt (days d) g) as [dt g1]. cbn [fst] in Ht. subst dt.
  replace (days d + days step) with (days (d + step)) by (unfold days; lia).
  destruct (IH (d + step) g1 Hstep) as (Hi & Hs & Hlo).
  { replace (d + step + step * (Z.of_nat n - 1))
      with (d + step * (Z.of_nat (S n) - 1)) by lia. done. }
  destruct (dates_loop n end_dt (days (d + step)) step g1) as [rest g2].
  cbn [fst] in *. split; [|split].
  - intros [|i] t Hl; cbn in Hl.
    + injection Hl as <-. exists h, m. rewrite Z.mul_0_r, Z.add_0_r. done.
    + destruct (Hi i t Hl) as (h' & m' & Hh' & Hm' & ->).
      exists h', m'. split; [done|]. split; [done|]. do 3 f_equal. lia.
  - constructor; [done|]. eapply Forall_impl; [exact Hlo|].
    intros t Ht. cbn beta in Ht. unfold days, hours, minutes in *. lia.
  - constructor; [unfold days, hours, minutes in *; lia|].
    eapply Forall_impl; [exact Hlo|].
    intros t Ht. cbn beta in Ht. unfold days, hours, minutes in *. lia.
Qed.

(** X3.  When the steps fit the window, i.e. the day of the last step,
    [start + 1 + step * (count - 1)], comes before the end date, no timestamp
    is clamped: the [i]-th one returned lies on day [start + 1 + step * i]
    between 09:00 and 20:59, so one per step, in step order. *)
Theorem dates_between_fits (start end_ count : Z) (g : Rng) (i : nat)
    (t : datetime) :
  let step := Z.max 1 ((end_ - start) / count) in
  1 <= count ->
  start + 1 + step * (count - 1) < end_ ->
  (dates_between start end_ count g).1 !! i = Some t ->
  exists h m, 9 <= h <= 20 /\ 0 <= m <= 59
              /\ t = strptime (start + 1 + step * Z.of_nat i)
                     + hours h + minutes m.
Proof.
  intros step Hc Hfit. unfold dates_between.
  destruct (Z.leb_spec count 0); [lia|]. rewrite total_days_eq. fold step.
  replace (strptime start + days 1) with (days (start + 1))
    by (unfold strptime, days; lia).
  destruct (dates_loop_fits (strptime end_) step (Z.to_nat count) (start + 1) g)
    as (Hi & Hs & _).
  { unfold step. lia. }
  { rewrite Z2Nat.id by lia. unfold strptime, days, hours, minutes. nia. }
  destruct (dates_loop _ _ _ _ _) as [dates g']. cbn [fst] in *.
  assert (E : merge_sort Z.le dates = dates).
  { apply (StronglySorted_unique Z.le); [|done|apply merge_sort_Permutation].
    apply StronglySorted_merge_sort; apply _. }
  rewrite E. intros Hl. destruct (Hi i t Hl) as (h & m & Hh & Hm & ->).
  exists h, m. split; [done|]. split; [done|].
  unfold strptime. do 3 f_equal.
Qed.

Lemma dates_between_fits_witness :
  1 <= 5 /\ 0 + 1 + Z.max 1 ((10 - 0) / 5) * (5 - 1) < 10
  /\ (dates_between 0 10 5 draws_0).1 !! 2%nat = Some 8198
  /\ exists h m, 9 <= h <= 20 /\ 0 <= m <= 59
                 /\ 8198 = strptime (0 + 1 + Z.max 1 ((10 - 0) / 5) * Z.of_nat 2)
                           + hours h + minutes m.
Proof.
  split; [lia|]. split; [reflexivity|]. split; [reflexivity|].
  exact (dates_between_fits 0 10 5 draws_0 2 8198 ltac:(lia) eq_refl eq_refl).
Defined.

(** *** Draws *)

Lemma iter_advance_add (n k : nat) (g : Rng) :
  Nat.iter n advance (Nat.iter k advance g) = Nat.iter (n + k) advance g.
Proof.
  induction n as [|n IH]; [done|].
  change (advance (Nat.iter n advance (Nat.iter k advance g))
          = advance (Nat.iter (n + k) advance g)).
  by rewrite IH.
Qed.

Lemma jittered_draws (end_dt current : datetime) (g : Rng) :
  exists n, (2 <= n <= 3)%nat /\ (jittered end_dt current g).2 = Nat.iter n advance g.
Proof.
  unfold jittered, randint.
  destruct (_ >? end_dt); [exists 3%nat|exists 2%nat]; split; (lia || reflexivity).
Qed.

Lemma dates_loop_draws (end_dt step : Z) (k : nat) :
  forall (current : Z) (g : Rng),
  exists n, (2 * k <= n <= 3 * k)%nat
            /\ (dates_loop k end_dt current step g).2 = Nat.iter n advance g.
Proof.
  induction k as [|k IH]; intros current g; cbn [dates_loop].
  { exists 0%nat. split; [lia|reflexivity]. }
  destruct (jittered_draws end_dt current g) as (n1 & Hn1 & E1).
  destruct (jittered end_dt current g) as [dt g1]. cbn [snd] in E1.
  destruct (IH (current + days step) g1) as (n2 & Hn2 & E2).
  destruct (dates_loop k end_dt (current + days step) step g1) as [rest g2].
  cbn [snd] in *. exists (n2 + n1)%nat. split; [lia|].
  by rewrite E2, E1, iter_advance_add.
Qed.

(** X4.  A call for [count] timestamps takes at least two and at most three
    draws from the random source per timestamp (the third is the backoff of
    a clamped step), and none at all for a count of zero or less. *)
Theorem dates_between_draws (start end_ count : Z) (g : Rng) :
  exists n : nat,
    2 * Z.max 0 count <= Z.of_nat n <= 3 * Z.max 0 count
    /\ (dates_between start end_ count g).2 = Nat.iter n advance g.
Proof.
  unfold dates_between. destruct (Z.leb_spec count 0).
  - exists 0%nat. split; [lia|reflexivity].
  - destruct (dates_loop_draws (strptime end_)
                (Z.max 1 (timedelta_days (strptime end_ - strptime start) / count))
                (Z.to_nat count) (strptime start + days 1) g) as (n & Hn & E).
    destruct (dates_loop _ _ _ _ _) as [dates g']. cbn [snd] in *.
    exists n. split; [lia|done].
Qed.

End SchedulerEdges.

(** * Further properties of the script *)

Module ScriptEdges.
Import Time Random Scheduler Git Script Observe Samples.

(** *** Files *)





(** *** [commit_all] *)



(** *** What a finished pass of the loops has done *)

Lemma pick_author_inv (accounts : list Account) (i : nat) (a : Account) :
  pick_author accounts i = Ok a ->
  accounts !! (i mod length accounts)%nat = Some a.
Proof.
  unfold pick_author. destruct (length accounts) eqn:El; [done|].
  destruct (accounts !! _) eqn:E; [|done]. by intros [= ->].
Qed.

(** A pass of the loop body that ended normally either skipped or
    committed. *)
Lemma perform_inv (accounts : list Account) (dates : list datetime) (c_idx : nat)
    (message : string) (action : Action) (counts : list (string * Z))
    (idx : nat) (w : World) (g : Rng) (r' : Rotation) (s' : State) :
  perform accounts dates c_idx (message, action) (counts, idx) (w, g) = (Ok r', s') ->
  exists author when,
    accounts !! (idx mod length accounts)%nat = Some author
    /\ dates !! c_idx = Some when
    /\ let f := (action (files w) g).1 in
       let g1 := (action (files w) g).2 in
       (f = head_tree w /\ r' = (counts, S idx)
        /\ s' = (staged when (username author) (email author) (set_files f w), g1))
       \/ (f <> head_tree w
           /\ exists c, dict_get (username author) counts = Some c
                /\ r' = (dict_set (username author) (c + 1) counts, S idx)
                /\ s' = (committed message when (username author) (email author)
                           (set_files f w), g1)).
Proof.
  intros H.
  assert (Hl : exists author when,
             accounts !! (idx mod length accounts)%nat = Some author
             /\ dates !! c_idx = Some when).
  { unfold perform in H. unfold bind at 1, call_action in H.
    cbn [fst snd] in H. destruct (action (files w) g) as [f g1].
    unfold bind at 1, lift at 1 in H.
    destruct (pick_author accounts idx) as [a|e] eqn:Ep;
      [|cbv beta iota in H; discriminate].
    cbv beta iota in H. unfold bind at 1, lift at 1, date_at in H.
    destruct (dates !! c_idx) as [when|] eqn:Ed;
      [|cbv beta iota in H; discriminate].
    exists a, when. split; [by apply pick_author_inv|done]. }
  destruct Hl as (author & when & Ha & Hd). exists author, when.
  split; [done|]. split; [done|].
  rewrite (ScriptFacts.perform_eq _ _ _ _ _ _ _ _ _ _ _ Ha Hd) in H.
  cbn zeta in *. destruct (decide _) as [E|NE].
  - left. by injection H as <- <-.
  - right. split; [done|]. unfold increment in H.
    destruct (dict_get (username author) counts) as [c|]; [|done].
    exists c. by injection H as <- <-.
Qed.

Lemma commits_by_nil (u : string) : commits_by u [] = 0.
Proof. reflexivity. Qed.

Lemma commits_by_app (u : string) (cs cs' : list CommitRecord) :
  commits_by u (cs ++ cs') = commits_by u cs + commits_by u cs'.
Proof. unfold commits_by. rewrite filter_app, length_app. lia. Qed.

Lemma times_selected_app (u : string) (l l' : list string) :
  times_selected u (l ++ l') = (times_selected u l + times_selected u l')%nat.
Proof. unfold times_selected. by rewrite filter_app, length_app. Qed.

Lemma stretch_nil (accounts : list Account) (counts : list (string * Z))
    (idx : nat) (s : State) :
  stretch accounts [] counts s (counts, idx) s.
Proof.
  exists [], [], []. rewrite !app_nil_r.
  do 5 (split; [done|]). split; [constructor|]. split; [|split; [|done]].
  - intros u. rewrite commits_by_nil. cbn [fst].
    destruct (dict_get u counts); simpl; [f_equal; lia|done].
  - intros u. rewrite commits_by_nil. lia.
Qed.

Lemma stretch_app (accounts : list Account) (o1 o2 : list datetime)
    (counts : list (string * Z)) (s s1 s2 : State) (r1 r2 : Rotation) :
  stretch accounts o1 counts s r1 s1 ->
  stretch accounts o2 r1.1 s1 r2 s2 ->
  stretch accounts (o1 ++ o2) counts s r2 s2.
Proof.
  intros (cs1 & ts1 & t1 & L1 & T1 & A1 & C1 & S1 & F1 & D1 & B1 & R1 & P1 & M1)
         (cs2 & ts2 & t2 & L2 & T2 & A2 & C2 & S2 & F2 & D2 & B2 & R2 & P2 & M2).
  exists (cs1 ++ cs2), (ts1 ++ ts2), (t1 ++ t2).
  split; [by rewrite L2, L1, app_assoc|].
  split; [by rewrite T2, T1, app_assoc|].
  split; [by rewrite !fmap_app, A1, A2|].
  split; [by rewrite !fmap_app, C1, C2|].
  split; [by apply sublist_app|].
  split; [by apply Forall_app|].
  split; [|split; [|by rewrite R2, P2, M2]].
  - intros u. rewrite D2, D1. destruct (dict_get u counts); cbn; [|done].
    f_equal. rewrite commits_by_app. lia.
  - intros u. unfold config_names. rewrite omap_app, times_selected_app.
    rewrite commits_by_app. specialize (B1 u). specialize (B2 u).
    unfold config_names in *. lia.
Qed.

Lemma perform_stretch (accounts : list Account) (dates : list datetime)
    (c_idx : nat) (commit : string * Action) (counts : list (string * Z))
    (idx : nat) (s : State) (r' : Rotation) (s' : State) :
  perform accounts dates c_idx commit (counts, idx) s = (Ok r', s') ->
  exists when,
    dates !! c_idx = Some when
    /\ stretch accounts [when] counts s r' s'
    /\ files s'.1 = head_tree s'.1.
Proof.
  destruct commit as [message action], s as [w g]. intros H.
  destruct (perform_inv _ _ _ _ _ _ _ _ _ _ _ H)
    as (author & when & Ha & Hd & Hcase).
  exists when. split; [done|]. cbn zeta in Hcase.
  assert (Hin : author ∈ accounts) by (eapply list_elem_of_lookup_2; eauto).
  destruct Hcase as [(Hf & -> & ->)|(Hf & c & Hc & -> & ->)].
  - split; [|done].
    exists [], [], [ConfigUserName (username author);
                    ConfigUserEmail (email author); AddAll; DiffCachedQuiet].
    rewrite app_nil_r.
    do 4 (split; [done|]). split; [apply sublist_nil_l|].
    split; [constructor|]. split; [|split; [|done]].
    + intros u. rewrite commits_by_nil. cbn [fst].
      destruct (dict_get u counts); simpl; [f_equal; lia|done].
    + intros u. rewrite commits_by_nil. lia.
  - split; [|done].
    exists [mkCommit message (username author) (email author) (Some when)
              (Some when) (action (files w) g).1], [when],
           [ConfigUserName (username author); ConfigUserEmail (email author);
            AddAll; DiffCachedQuiet; CommitM message].
    do 5 (split; [done|]). split; [repeat constructor; eauto|].
    split; [|split; [|done]].
    + intros u. cbn [fst]. unfold commits_by.
      rewrite filter_cons, filter_nil. cbn [c_author_name].
      destruct (decide (username author = u)) as [<-|Hne].
      * rewrite ScriptFacts.dict_get_set_same, Hc. simpl; f_equal; lia.
      * rewrite ScriptFacts.dict_get_set_other by done.
        destruct (dict_get u counts); simpl; [f_equal; lia|done].
    + intros u. unfold commits_by, times_selected, config_names.
      cbn [omap list_omap]. rewrite !filter_cons, !filter_nil.
      cbn [c_author_name].
      destruct (decide (username author = u)); simpl; lia.
Qed.

Lemma perform_all_stretch (accounts : list Account) (dates : list datetime)
    (commits : list (string * Action)) :
  forall (c_idx : nat) (counts : list (string * Z)) (idx : nat) (s : State)
         (r' : Rotation) (s' : State),
    perform_all accounts dates c_idx commits (counts, idx) s = (Ok r', s') ->
    stretch accounts (drop c_idx dates) counts s r' s'
    /\ (commits <> [] \/ files s.1 = head_tree s.1 -> files s'.1 = head_tree s'.1).
Proof.
  induction commits as [|commit rest IH]; intros c_idx counts idx s r' s' H.
  - cbn in H. injection H as <- <-. split; [|by intros [|]].
    destruct (stretch_nil accounts counts idx s)
      as (cs & ts & t & L & T & A & C & S & rest).
    exists cs, ts, t. repeat split; try tauto.
    apply sublist_nil_r in S as ->. apply sublist_nil_l.
  - cbn [perform_all] in H. unfold bind in H.
    destruct (perform accounts dates c_idx commit (counts, idx) s)
      as [[[counts1 idx1]|e] s1] eqn:E1; [|done].
    destruct (perform_stretch _ _ _ _ _ _ _ _ _ E1) as (when & Hd & S1 & Cl1).
    destruct (IH _ _ _ _ _ _ H) as [S2 Cl2].
    split; [|intros _; apply Cl2; by right].
    rewrite (drop_S _ _ _ Hd). by apply (stretch_app _ [when] _ _ _ s1 _ (counts1, idx1)).
Qed.

Lemma perform_phases_stretch (accounts : list Account)
    (zipped : list (Phase * list datetime)) :
  forall (counts : list (string * Z)) (idx : nat) (s : State)
         (r' : Rotation) (s' : State),
    perform_phases accounts zipped (counts, idx) s = (Ok r', s') ->
    stretch accounts (concat zipped.*2) counts s r' s'
    /\ ((0 < total_actions zipped.*1)%nat \/ files s.1 = head_tree s.1 ->
        files s'.1 = head_tree s'.1).
Proof.
  induction zipped as [|[[[start end_] commits] dates] rest IH];
    intros counts idx s r' s' H.
  - cbn in H. injection H as <- <-. split; [apply stretch_nil|].
    intros [Hk|]; [cbn in Hk; lia|done].
  - cbn [perform_phases] in H. unfold bind in H.
    destruct (perform_all accounts dates 0 commits (counts, idx) s)
      as [[[counts1 idx1]|e] s1] eqn:E1; [|done].
    destruct (perform_all_stretch _ _ _ _ _ _ _ _ _ E1) as [S1 Cl1].
    destruct (IH _ _ _ _ _ H) as [S2 Cl2].
    split.
    + cbn [fmap list_fmap concat snd]. cbn [drop] in S1.
      by apply (stretch_app _ dates _ _ _ s1 _ (counts1, idx1)).
    + unfold total_actions. cbn [fmap list_fmap map sum_list fst snd].
      intros Hpre. apply Cl2. destruct commits as [|c0 commits'].
      * cbn in E1. injection E1 as <- <- <-.
        destruct Hpre as [Hk|Hc]; [left; exact Hk|right; exact Hc].
      * right. apply Cl1. by left.
Qed.

(** *** The whole commit part of a run *)



(** How a commit part that ended normally came about. *)
Lemma commit_phases_inv (seed : Z -> Rng) (phases : list Phase)
    (rows : list Account) (w : World) (g : Rng) (accounts : list Account)
    (counts : list (string * Z)) (s' : State) :
  commit_phases seed phases rows (w, g) = (Ok (accounts, counts), s') ->
  (2 <= length rows)%nat /\ accounts = rows
  /\ exists ds g' idx,
       compute_phase_dates phases (ensured w, seed 1337)
       = (Ok ds, (ensured w, g'))
       /\ Forall2 (fun (p : Phase) d => length p.2 = length d) phases ds
       /\ perform_phases rows (zip phases ds) (initial_counts rows, 0%nat)
            (ensured w, g') = (Ok (counts, idx), s').
Proof.
  intros H. destruct (Nat.lt_ge_cases (length rows) 2) as [Hfew|Hm].
  { by rewrite ScriptFacts.commit_phases_too_few in H. }
  split; [done|]. revert H. unfold commit_phases, random_seed.
  unfold bind at 1. cbn [fst snd]. unfold bind at 1.
  rewrite ScriptFacts.ensure_initial_gitignore_eq. unfold bind at 1, lift.
  rewrite ScriptFacts.read_accounts_eq.
  destruct (Nat.ltb_spec (length rows) 2); [lia|].
  destruct (ScriptFacts.compute_phase_dates_post phases (ensured w) (seed 1337))
    as (ds & g' & E & F).
  unfold bind at 1. rewrite E. unfold bind, ret.
  destruct (perform_phases rows (zip phases ds) (initial_counts rows, 0%nat)
              (ensured w, g')) as [[[counts' idx]|e] s1] eqn:Ep; [|done].
  cbn [fst]. intros [= <- <- <-]. split; [done|]. by exists ds, g', idx.
Qed.

Lemma log_ensured (w : World) : log (ensured w) = log w.
Proof. unfold ensured. by destruct (decide _). Qed.


Lemma pair_fst_eq {A B : Type} (p : A * B) (a : A) : p.1 = a -> p = (a, p.2).
Proof. destruct p. cbn. by intros ->. Qed.


(** *** Chronology *)

Lemma StronglySorted_sublist (l1 l2 : list Z) :
  l1 `sublist_of` l2 -> StronglySorted Z.le l2 -> StronglySorted Z.le l1.
Proof.
  induction 1 as [|x l1 l2 Hsub IH|x l1 l2 Hsub IH]; intros Hs.
  - constructor.
  - inversion Hs as [|? ? Hs' Hall]; subst. constructor; [by apply IH|].
    rewrite Forall_forall in *. intros y Hy. apply Hall.
    by apply (sublist_subseteq _ _ Hsub).
  - inversion Hs; subst. by apply IH.
Qed.

Lemma dates_between_window (start end_ count : Z) (g : Rng) :
  start < end_ ->
  Forall (fun t => strptime start < t <= strptime end_)
         (dates_between start end_ count g).1.
Proof.
  intros Hw. apply SchedulerEdges.dates_between_forall. intros d' g' Hd'.
  destruct (SchedulerFacts.jittered_case (strptime end_) (days d') g')
    as [h m Hh Hm -> Hle|h m back _ _ _ Hb ->];
    unfold strptime, days, hours, minutes in *; lia.
Qed.

(** The dates of phases whose windows follow one another are in order
    across the phases too. *)
Lemma compute_phase_dates_sorted (phases : list Phase) :
  forall (s : State) (ds : list (list datetime)) (s' : State) (lo : Z),
    compute_phase_dates phases s = (Ok ds, s') ->
    windows_ordered phases ->
    match phases with [] => True | (start, _, _) :: _ => lo <= start end ->
    StronglySorted Z.le (concat ds)
    /\ Forall (fun t => strptime lo < t) (concat ds).
Proof.
  induction phases as [|[[start end_] commits] rest IH];
    intros s ds s' lo H Hw Hlo.
  - cbn in H. injection H as <- <-. split; constructor.
  - cbn [compute_phase_dates] in H. unfold bind at 1, call_dates_between in H.
    cbv beta in H.
    pose proof (dates_between_window start end_ (Z.of_nat (length commits)) s.2)
      as Hin.
    pose proof (SchedulerFacts.dates_between_sorted_gen start end_
                  (Z.of_nat (length commits)) s.2) as Hsd.
    destruct (dates_between start end_ (Z.of_nat (length commits)) s.2)
      as [d g1]. cbn [fst] in *.
    cbv beta iota in H. unfold bind at 1 in H.
    destruct (compute_phase_dates rest (s.1, g1)) as [[more|e] s1] eqn:Er;
      [|cbv beta iota in H; discriminate].
    cbv beta iota in H. unfold ret in H. cbv beta in H. injection H as <- <-.
    destruct Hw as (Hse & Hnext & Hrest). specialize (Hin Hse).
    destruct (IH _ _ _ end_ Er Hrest) as [Hs Hb].
    { destruct rest as [|[[start' end'] commits'] rest']; done. }
    cbn [concat]. split.
    + apply StronglySorted_app_2; [|done|done].
      intros x1 x2 H1 H2. rewrite Forall_forall in Hin, Hb.
      specialize (Hin x1 H1). specialize (Hb x2 H2). lia.
    + apply Forall_app. split.
      * eapply Forall_impl; [exact Hin|]. intros t Ht. cbn beta in Ht.
        unfold strptime, days in *. lia.
      * eapply Forall_impl; [exact Hb|]. intros t Ht. cbn beta in Ht.
        unfold strptime, days in *. lia.
Qed.

(** X10.  When the windows of the phases follow one another, the commits a run
    creates are in chronological order in the log: their author dates, each
    equal to the committer date, never decrease from one commit to the
    next. *)
Theorem commits_are_chronological (seed : Z -> Rng) (phases : list Phase)
    (rows : list Account) (w : World) (g : Rng) (accounts : list Account)
    (counts : list (string * Z)) (s' : State) :
  commit_phases seed phases rows (w, g) = (Ok (accounts, counts), s') ->
  windows_ordered phases ->
  exists cs ts,
    log s'.1 = log w ++ cs
    /\ c_author_date <$> cs = Some <$> ts
    /\ c_committer_date <$> cs = Some <$> ts
    /\ StronglySorted Z.le ts.
Proof.
  intros H Hw. destruct (commit_phases_inv _ _ _ _ _ _ _ _ H)
    as (Hm & -> & ds & g' & idx & Ed & Fl & Ep).
  destruct (perform_phases_stretch _ _ _ _ _ _ _ Ep)
    as [(cs & ts & t & L & T & A & C & S & _) _].
  cbn [fst] in *. exists cs, ts. rewrite log_ensured in L.
  do 3 (split; [done|]).
  apply (StronglySorted_sublist _ _ S).
  rewrite snd_zip by (apply Forall2_length in Fl; lia).
  destruct phases as [|[[start end_] commits] rest].
  - cbn in Ed. injection Ed as <- _. constructor.
  - destruct (compute_phase_dates_sorted _ _ _ _ start Ed Hw) as [Hs _];
      [cbn; lia|exact Hs].
Qed.

Lemma commits_are_chronological_witness :
  commit_phases seed_0 two_phases [alice; bob] (world_0, draws_0)
  = (Ok ([alice; bob], [("alice", 3); ("bob", 2)]%string),
     (commit_phases seed_0 two_phases [alice; bob] (world_0, draws_0)).2)
  /\ windows_ordered two_phases
  /\ exists cs ts,
       log (commit_phases seed_0 two_phases [alice; bob] (world_0, draws_0)).2.1
       = log world_0 ++ cs
       /\ c_author_date <$> cs = Some <$> ts
       /\ StronglySorted Z.le ts.
Proof.
  assert (E : commit_phases seed_0 two_phases [alice; bob] (world_0, draws_0)
              = (Ok ([alice; bob], [("alice", 3); ("bob", 2)]%string),
                 (commit_phases seed_0 two_phases [alice; bob]
                    (world_0, draws_0)).2)).
  { apply pair_fst_eq. vm_compute. reflexivity. }
  assert (W : windows_ordered two_phases) by (cbn; lia).
  split; [exact E|]. split; [exact W|].
  destruct (commits_are_chronological _ _ _ _ _ _ _ _ E W)
    as (cs & ts & L & A & _ & S).
  exists cs, ts. split; [exact L|]. split; [exact A|exact S].
Defined.

(** *** A clean tree *)

(** X11.  A run with at least one action leaves nothing uncommitted: when the
    commit loops end, the working tree is the tree of the last commit. *)
Theorem run_leaves_clean_tree (seed : Z -> Rng) (phases : list Phase)
    (rows : list Account) (w : World) (g : Rng) (accounts : list Account)
    (counts : list (string * Z)) (s' : State) :
  commit_phases seed phases rows (w, g) = (Ok (accounts, counts), s') ->
  (0 < total_actions phases)%nat ->
  files s'.1 = head_tree s'.1.
Proof.
  intros H Hk. destruct (commit_phases_inv _ _ _ _ _ _ _ _ H)
    as (Hm & -> & ds & g' & idx & Ed & Fl & Ep).
  destruct (perform_phases_stretch _ _ _ _ _ _ _ Ep) as [_ Cl].
  apply Cl. left. rewrite fst_zip; [done|].
  apply Forall2_length in Fl. lia.
Qed.

Lemma run_leaves_clean_tree_witness :
  commit_phases seed_0 two_phases [alice; bob] (world_0, draws_0)
  = (Ok ([alice; bob], [("alice", 3); ("bob", 2)]%string),
     (commit_phases seed_0 two_phases [alice; bob] (world_0, draws_0)).2)
  /\ (0 < total_actions two_phases)%nat
  /\ files (commit_phases seed_0 two_phases [alice; bob] (world_0, draws_0)).2.1
     = head_tree
         (commit_phases seed_0 two_phases [alice; bob] (world_0, draws_0)).2.1.
Proof.
  assert (E : commit_phases seed_0 two_phases [alice; bob] (world_0, draws_0)
              = (Ok ([alice; bob], [("alice", 3); ("bob", 2)]%string),
                 (commit_phases seed_0 two_phases [alice; bob]
                    (world_0, draws_0)).2)).
  { apply pair_fst_eq. vm_compute. reflexivity. }
  assert (K : (0 < total_actions two_phases)%nat) by (cbn; lia).
  split; [exact E|]. split; [exact K|].
  exact (run_leaves_clean_tree _ _ _ _ _ _ _ _ E K).
Defined.

(** *** Too few actions for the threshold *)





(** *** Publishing *)

Lemma run_eq (c : GitCmd) (w : World) (g : Rng) :
  run c (w, g) =
  (if (exec c (record_cmd c w)).1 =? 0 then Ok tt
   else Raise (CalledProcessError c (exec c (record_cmd c w)).1),
   ((exec c (record_cmd c w)).2, g)).
Proof.
  unfold run, bind, subprocess_run. cbn [fst snd].
  destruct (exec c (record_cmd c w)) as [code w']. cbn [fst snd].
  unfold ret, raise. by destruct (code =? 0).
Qed.

Lemma run_remote_add (url : string) (w : World) (g : Rng) :
  run (RemoteAdd "origin" url) (w, g) =
  if has_remote "origin" w
  then (Raise (CalledProcessError (RemoteAdd "origin" url) 3),
        (record_cmd (RemoteAdd "origin" url) w, g))
  else (Ok tt,
        (set_remotes (remotes w ++ [("origin"%string, url)])
           (record_cmd (RemoteAdd "origin" url) w), g)).
Proof.
  rewrite run_eq. cbn [exec].
  change (has_remote "origin" (record_cmd (RemoteAdd "origin" url) w))
    with (has_remote "origin" w).
  by destruct (has_remote "origin" w).
Qed.

Lemma run_remote_set_url (url : string) (w : World) (g : Rng) :
  run (RemoteSetUrl "origin" url) (w, g) =
  if has_remote "origin" w
  then (Ok tt,
        (set_remotes (set_url "origin" url (remotes w))
           (record_cmd (RemoteSetUrl "origin" url) w), g))
  else (Raise (CalledProcessError (RemoteSetUrl "origin" url) 2),
        (record_cmd (RemoteSetUrl "origin" url) w, g)).
Proof.
  rewrite run_eq. cbn [exec].
  change (has_remote "origin" (record_cmd (RemoteSetUrl "origin" url) w))
    with (has_remote "origin" w).
  by destruct (has_remote "origin" w).
Qed.

Lemma run_branch_force (w : World) (g : Rng) :
  run (BranchForce "master" "main") (w, g) =
  match log w with
  | [] => (Raise (CalledProcessError (BranchForce "master" "main") 128),
           (record_cmd (BranchForce "master" "main") w, g))
  | _ => (Ok tt,
          (set_master (Some (length (log w)))
             (record_cmd (BranchForce "master" "main") w), g))
  end.
Proof.
  rewrite run_eq. cbn [exec].
  change (log (record_cmd (BranchForce "master" "main") w)) with (log w).
  by destruct (log w).
Qed.

Lemma run_push (c : GitCmd) (refspec : string) (w : World) (g : Rng) :
  c = PushUpstream "origin" refspec \/ c = Push "origin" refspec ->
  run c (w, g) =
  if has_remote "origin" w
  then (Ok tt, (add_pushed ("origin"%string, refspec) (record_cmd c w), g))
  else (Raise (CalledProcessError c 128), (record_cmd c w, g)).
Proof.
  intros [-> | ->]; rewrite run_eq; cbn [exec].
  - change (has_remote "origin" (record_cmd (PushUpstream "origin" refspec) w))
      with (has_remote "origin" w).
    by destruct (has_remote "origin" w).
  - change (has_remote "origin" (record_cmd (Push "origin" refspec) w))
      with (has_remote "origin" w).
    by destruct (has_remote "origin" w).
Qed.

Lemma set_git_author_eq (name email : string) (w : World) (g : Rng) :
  set_git_author name email (w, g) =
  (Ok tt,
   (set_user_email email
      (record_cmd (ConfigUserEmail email)
         (set_user_name name (record_cmd (ConfigUserName name) w))), g)).
Proof. reflexivity. Qed.

Lemma has_remote_set_url (alias url : string) (r : list (string * string)) :
  (set_url alias url r).*1 = r.*1.
Proof.
  induction r as [|[a u] r IH]; cbn; [done|].
  destruct (decide (a = alias)); cbn; [done|]. by rewrite IH.
Qed.

Lemma set_url_elem (alias url : string) (r : list (string * string)) :
  alias ∈ r.*1 -> (alias, url) ∈ set_url alias url r.
Proof.
  induction r as [|[a u] r IH]; cbn; intros H.
  - by apply elem_of_nil in H.
  - destruct (decide (a = alias)) as [->|Hne].
    + apply elem_of_cons. by left.
    + apply elem_of_cons. right. apply IH.
      apply elem_of_cons in H as [->|H]; done.
Qed.

(** The url the script pushes to. *)
Lemma find_primary_inv (accounts : list Account) (primary : Account) :
  find_primary accounts = Ok primary ->
  primary ∈ accounts /\ username primary = "nanonkt001"%string.
Proof.
  unfold find_primary. destruct (List.find _ accounts) eqn:E; [|done].
  intros [= ->]. apply List.find_some in E as [Hin Hb].
  split; [by apply list_elem_of_In|]. by apply bool_decide_eq_true_1 in Hb.
Qed.

Ltac proj :=
  cbn [files index head_tree log user_name user_email GIT_AUTHOR_DATE
       GIT_COMMITTER_DATE remotes master pushed trace
       set_files set_index set_user_name set_user_email set_author_date
       set_committer_date add_commit record_cmd set_remotes set_master
       add_pushed fst snd].

Lemma has_remote_proj (alias : string) (w w' : World) :
  remotes w' = remotes w -> has_remote alias w' = has_remote alias w.
Proof. unfold has_remote. by intros ->. Qed.

Lemma publish_tail (primary : Account) (w : World) (g : Rng) :
  has_remote "origin" w = true ->
  (run (BranchForce "master" "main");;
   set_git_author (username primary) (email primary);;
   run (PushUpstream "origin" "main:main");;
   run (Push "origin" "master:master")) (w, g)
  = match log w with
    | [] => (Raise (CalledProcessError (BranchForce "master" "main") 128),
             (record_cmd (BranchForce "master" "main") w, g))
    | _ => (Ok tt, (pushed_world primary w, g))
    end.
Proof.
  intros Hh. unfold bind at 1. rewrite run_branch_force.
  destruct (log w) as [|c0 l] eqn:El; [done|].
  unfold bind at 1. rewrite set_git_author_eq. unfold bind at 1.
  rewrite (run_push (PushUpstream "origin" "main:main") "main:main")
    by (by left).
  rewrite (has_remote_proj "origin" w) by reflexivity. rewrite Hh.
  rewrite (run_push (Push "origin" "master:master") "master:master")
    by (by right).
  rewrite (has_remote_proj "origin" w) by reflexivity. rewrite Hh.
  do 2 f_equal. unfold pushed_world, origin_alias.
  apply ScriptFacts.world_ext; proj; rewrite <- ?app_assoc, ?El; reflexivity.
Qed.

(** [publish], step by step. *)
Lemma publish_eq (accounts : list Account) (w : World) (g : Rng) :
  publish accounts (w, g) =
  match find_primary accounts with
  | Raise e => (Raise e, (w, g))
  | Ok primary =>
      let url := origin_url primary in
      let w1 := record_cmd RemoteList w in
      if contains "origin" (remote_stdout w)
      then if has_remote "origin" w
           then match log w with
                | [] => (Raise (CalledProcessError (BranchForce "master" "main") 128),
                         (record_cmd (BranchForce "master" "main")
                            (remote_world (RemoteSetUrl "origin" url)
                               (set_url "origin" url (remotes w)) w), g))
                | _ => (Ok tt,
                        (pushed_world primary
                           (remote_world (RemoteSetUrl "origin" url)
                              (set_url "origin" url (remotes w)) w), g))
                end
           else (Raise (CalledProcessError (RemoteSetUrl "origin" url) 2),
                 (record_cmd (RemoteSetUrl "origin" url) w1, g))
      else if has_remote "origin" w
           then (Raise (CalledProcessError (RemoteAdd "origin" url) 3),
                 (record_cmd (RemoteAdd "origin" url) w1, g))
           else match log w with
                | [] => (Raise (CalledProcessError (BranchForce "master" "main") 128),
                         (record_cmd (BranchForce "master" "main")
                            (remote_world (RemoteAdd "origin" url)
                               (remotes w ++ [("origin"%string, url)]) w), g))
                | _ => (Ok tt,
                        (pushed_world primary
                           (remote_world (RemoteAdd "origin" url)
                              (remotes w ++ [("origin"%string, url)]) w), g))
                end
  end.
Proof.
  unfold publish. unfold bind at 1, lift at 1.
  destruct (find_primary accounts) as [primary|e]; [|done].
  unfold bind at 1, git_remote. unfold bind at 1, subprocess_run.
  cbn [exec fst snd].
  change (remote_stdout (record_cmd RemoteList w)) with (remote_stdout w).
  fold (origin_url primary). cbv zeta.
  destruct (contains "origin" (remote_stdout w)) eqn:Ec; cbn [negb].
  - unfold bind at 1. rewrite run_remote_set_url.
    rewrite (has_remote_proj "origin" w) by reflexivity.
    destruct (has_remote "origin" w) eqn:Eh; [|done].
    assert (Ew : set_remotes (set_url "origin" (origin_url primary)
                                (remotes (record_cmd RemoteList w)))
                   (record_cmd (RemoteSetUrl "origin" (origin_url primary))
                      (record_cmd RemoteList w))
                 = remote_world (RemoteSetUrl "origin" (origin_url primary))
                     (set_url "origin" (origin_url primary) (remotes w)) w).
    { apply ScriptFacts.world_ext; proj; rewrite <- ?app_assoc; reflexivity. }
    rewrite Ew. rewrite publish_tail.
    + reflexivity.
    + unfold has_remote. cbn [remotes remote_world].
      rewrite has_remote_set_url. exact Eh.
  - unfold bind at 1. rewrite run_remote_add.
    rewrite (has_remote_proj "origin" w) by reflexivity.
    destruct (has_remote "origin" w) eqn:Eh; [done|].
    assert (Ew : set_remotes (remotes (record_cmd RemoteList w)
                                ++ [("origin"%string, origin_url primary)])
                   (record_cmd (RemoteAdd "origin" (origin_url primary))
                      (record_cmd RemoteList w))
                 = remote_world (RemoteAdd "origin" (origin_url primary))
                     (remotes w ++ [("origin"%string, origin_url primary)]) w).
    { apply ScriptFacts.world_ext; proj; rewrite <- ?app_assoc; reflexivity. }
    rewrite Ew. rewrite publish_tail.
    + reflexivity.
    + unfold has_remote. cbn [remotes remote_world].
      apply bool_decide_eq_true_2. rewrite fmap_app. apply elem_of_app.
      right. apply elem_of_cons. by left.
Qed.

Lemma publish_ok_inv (accounts : list Account) (w : World) (g : Rng) (s' : State) :
  publish accounts (w, g) = (Ok tt, s') ->
  exists primary,
    find_primary accounts = Ok primary
    /\ primary ∈ accounts /\ username primary = "nanonkt001"%string
    /\ (origin_alias, origin_url primary) ∈ remotes s'.1
    /\ pushed s'.1 = pushed w ++ [(origin_alias, "main:main"%string);
                                  (origin_alias, "master:master"%string)]
    /\ log w <> [] /\ master s'.1 = Some (length (log w))
    /\ log s'.1 = log w /\ files s'.1 = files w /\ head_tree s'.1 = head_tree w
    /\ user_name s'.1 = "nanonkt001"%string /\ user_email s'.1 = email primary
    /\ s'.2 = g.
Proof.
  rewrite publish_eq. destruct (find_primary accounts) as [primary|e] eqn:Ef;
    [|done].
  destruct (find_primary_inv _ _ Ef) as [Hin Hname]. cbv zeta.
  destruct (contains "origin" (remote_stdout w)),
           (has_remote "origin" w) eqn:Eh; try done;
    destruct (log w) as [|c0 l] eqn:El; try done;
    intros [= <-]; exists primary; cbn [fst snd];
    unfold pushed_world, remote_world; proj; rewrite ?El;
    (do 3 (split; [done|])); (split; [|by repeat split]).
  - apply set_url_elem. by apply bool_decide_eq_true_1 in Eh.
  - apply elem_of_app. right. apply elem_of_cons. by left.
Qed.

(** X13.  When [publish] ends normally, the pool holds an identity named
    [nanonkt001]; the alias [origin] then points at the url built from that
    identity's token, [master] is at the tip of the log, both branches have
    been pushed to [origin], [main] first, the git author is that identity,
    and neither the log nor the working tree has changed. *)
Theorem publish_spec (accounts : list Account) (w : World) (g : Rng) (s' : State) :
  publish accounts (w, g) = (Ok tt, s') ->
  exists primary,
    find_primary accounts = Ok primary
    /\ primary ∈ accounts /\ username primary = "nanonkt001"%string
    /\ (origin_alias, origin_url primary) ∈ remotes s'.1
    /\ pushed s'.1 = pushed w ++ [(origin_alias, "main:main"%string);
                                  (origin_alias, "master:master"%string)]
    /\ log w <> [] /\ master s'.1 = Some (length (log w))
    /\ log s'.1 = log w /\ files s'.1 = files w /\ head_tree s'.1 = head_tree w
    /\ user_name s'.1 = "nanonkt001"%string /\ user_email s'.1 = email primary
    /\ s'.2 = g.
Proof.
  intros H. destruct (publish_ok_inv _ _ _ _ H) as (primary & Hrest).
  exists primary. exact Hrest.
Qed.

Lemma publish_spec_witness :
  publish [primary; bob] (commit_phases seed_0 [phase_of 30] [primary; bob]
                            (world_0, draws_0)).2
  = (Ok tt, (main seed_0 [phase_of 30] [primary; bob] (world_0, draws_0)).2)
  /\ exists p,
       find_primary [primary; bob] = Ok p
       /\ pushed (main seed_0 [phase_of 30] [primary; bob] (world_0, draws_0)).2.1
          = [(origin_alias, "main:main"%string);
             (origin_alias, "master:master"%string)].
Proof.
  assert (E : publish [primary; bob]
                (commit_phases seed_0 [phase_of 30] [primary; bob]
                   (world_0, draws_0)).2
              = (Ok tt, (main seed_0 [phase_of 30] [primary; bob]
                           (world_0, draws_0)).2)).
  { rewrite ScriptFacts.main_eq.
    assert (Ec : (commit_phases seed_0 [phase_of 30] [primary; bob]
                    (world_0, draws_0)).1
                 = Ok ([primary; bob], [("nanonkt001", 15); ("bob", 15)]%string))
      by (vm_compute; reflexivity).
    rewrite (pair_fst_eq _ _ Ec) at 2. cbn [fst snd check_counts Z.leb Z.compare
                                            Pos.compare Pos.compare_cont].
    apply pair_fst_eq. vm_compute. reflexivity. }
  split; [exact E|].
  destruct (commit_phases seed_0 [phase_of 30] [primary; bob] (world_0, draws_0)).2
    as [w1 g1] eqn:Es.
  destruct (publish_spec _ _ _ _ E) as (p & Hf & _ & _ & _ & Hp & _).
  exists p. split; [exact Hf|]. rewrite Hp.
  assert (Ep : pushed w1 = []).
  { change w1 with (w1, g1).1. rewrite <- Es. vm_compute. reflexivity. }
  by rewrite Ep.
Defined.

(** X14.  The membership test for the alias is a substring test on the output of
    [git remote]: when some alias contains [origin] and none is [origin],
    the script takes the remote as present and the run ends with the
    failure of [git remote set-url], nothing pushed. *)
Theorem publish_substring_alias (accounts : list Account) (primary : Account)
    (w : World) (g : Rng) :
  find_primary accounts = Ok primary ->
  contains "origin" (remote_stdout w) = true ->
  has_remote "origin" w = false ->
  publish accounts (w, g)
  = (Raise (CalledProcessError (published_set_url primary) 2),
     (record_cmd (published_set_url primary) (record_cmd RemoteList w), g)).
Proof.
  intros Hf Hc Hh. rewrite publish_eq, Hf. cbv zeta. by rewrite Hc, Hh.
Qed.

Lemma publish_substring_alias_witness :
  find_primary [primary; bob] = Ok primary
  /\ contains "origin" (remote_stdout world_fork) = true
  /\ has_remote "origin" world_fork = false
  /\ (publish [primary; bob] (world_fork, draws_0)).1
     = Raise (CalledProcessError (published_set_url primary) 2).
Proof.
  split; [reflexivity|]. split; [reflexivity|]. split; [reflexivity|].
  by rewrite (publish_substring_alias [primary; bob] primary world_fork draws_0
                eq_refl eq_refl eq_refl).
Defined.

(** *** How a run can end *)




(** *** A run that ends normally *)





(** *** The first steps of a run *)

(** X17.  [ensure_initial_gitignore] leaves a repository that has a [.gitignore]
    exactly as it is; otherwise it writes the file and nothing else.  Either
    way the file exists afterwards, and a second call changes nothing. *)
Theorem ensure_initial_gitignore_spec (w : World) (g : Rng) :
  exists w',
    ensure_initial_gitignore (w, g) = (Ok tt, (w', g))
    /\ is_Some (files w' !! ".gitignore"%string)
    /\ (is_Some (files w !! ".gitignore"%string) -> w' = w)
    /\ (forall path, path <> ".gitignore"%string ->
          files w' !! path = files w !! path)
    /\ ensure_initial_gitignore (w', g) = (Ok tt, (w', g)).
Proof.
  exists (ensured w). split; [reflexivity|].
  assert (Hs : is_Some (files (ensured w) !! ".gitignore"%string)).
  { unfold ensured. destruct (decide _) as [Hs|Hn]; [done|].
    cbn [files set_files]. rewrite lookup_insert_eq. eauto. }
  split; [done|]. split; [|split].
  - intros H. unfold ensured. by rewrite decide_True.
  - intros path Hne. unfold ensured. destruct (decide _); [done|].
    cbn [files set_files]. by rewrite lookup_insert_ne.
  - rewrite ScriptFacts.ensure_initial_gitignore_eq. do 2 f_equal.
    unfold ensured at 1. by rewrite decide_True.
Qed.

Lemma dict_set_keys (k : string) (v : Z) (d : list (string * Z)) :
  (dict_set k v d).*1 = if decide (k ∈ d.*1) then d.*1 else d.*1 ++ [k].
Proof.
  induction d as [|[k' v'] d IH]; cbn [dict_set].
  - rewrite decide_False by apply not_elem_of_nil. done.
  - destruct (decide (k' = k)) as [->|Hne]; cbn [fmap list_fmap fst].
    + rewrite decide_True by (apply elem_of_cons; by left). done.
    + change (list_fmap _ _ fst d) with (d.*1).
      change (list_fmap _ _ fst (dict_set k v d)) with ((dict_set k v d).*1).
      rewrite IH. destruct (decide (k ∈ d.*1)) as [Hin|Hnin].
      * rewrite decide_True by (apply elem_of_cons; by right). done.
      * rewrite decide_False; [done|].
        intros [?|?]%elem_of_cons; congruence.
Qed.

Lemma dict_set_values (k : string) (v : Z) (d : list (string * Z)) (P : Z -> Prop) :
  P v -> Forall (fun kv => P kv.2) d -> Forall (fun kv => P kv.2) (dict_set k v d).
Proof.
  intros Hv. induction 1 as [|[k' v'] d Hk Hd IH]; cbn [dict_set].
  - by repeat constructor.
  - destruct (decide (k' = k)); constructor; done.
Qed.

(** X18.  The dictionary of counts starts with one entry per distinct user name of
    the pool, in the order the names first appear, each at 0: identities
    that share a user name share one counter. *)
Theorem initial_counts_spec (accounts : list Account) :
  NoDup (initial_counts accounts).*1
  /\ (forall u, u ∈ (initial_counts accounts).*1 <-> u ∈ username <$> accounts)
  /\ Forall (fun kv => kv.2 = 0) (initial_counts accounts)
  /\ (NoDup (username <$> accounts) ->
      initial_counts accounts = (fun a => (username a, 0)) <$> accounts).
Proof.
  unfold initial_counts.
  assert (G : forall (l : list Account) (d : list (string * Z)),
             NoDup d.*1 -> Forall (fun kv => kv.2 = 0) d ->
             let d' := fold_left (fun d a => dict_set (username a) 0 d) l d in
             NoDup d'.*1
             /\ (forall u, u ∈ d'.*1 <-> u ∈ d.*1 \/ u ∈ username <$> l)
             /\ Forall (fun kv => kv.2 = 0) d'
             /\ (NoDup (d.*1 ++ (username <$> l)) ->
                 d' = d ++ ((fun a => (username a, 0)) <$> l))).
  { induction l as [|a l IH]; intros d Hnd Hz; cbn zeta; cbn [fold_left].
    - split; [done|]. split; [|split; [done|]].
      + intros u. rewrite fmap_nil, elem_of_nil. tauto.
      + intros _. by rewrite fmap_nil, app_nil_r.
    - destruct (IH (dict_set (username a) 0 d)) as (N & K & Z0 & Q).
      + rewrite dict_set_keys. destruct (decide _) as [Hin|Hnin]; [done|].
        apply NoDup_app. split; [done|]. split; [|apply NoDup_singleton].
        intros x Hx Hx'. apply list_elem_of_singleton in Hx'. by subst.
      + by apply (dict_set_values _ _ _ (fun v => v = 0)).
      + split; [done|]. split; [|split; [done|]].
        * intros u. rewrite K, dict_set_keys, fmap_cons, elem_of_cons.
          destruct (decide (username a ∈ d.*1)) as [Hin|Hnin].
          -- split; [tauto|]. intros [?|[->|?]]; tauto.
          -- rewrite elem_of_app, list_elem_of_singleton. tauto.
        * intros Hnd'. rewrite fmap_cons in Hnd'.
          assert (Hnin : username a ∉ d.*1).
          { apply NoDup_app in Hnd' as (_ & Hd & _). intros Hin.
            apply (Hd _ Hin). apply elem_of_cons. by left. }
          assert (Ed : dict_set (username a) 0 d = d ++ [(username a, 0)]).
          { clear -Hnin. induction d as [|[k v] d IH]; cbn [dict_set]; [done|].
            rewrite fmap_cons, not_elem_of_cons in Hnin. destruct Hnin as [Hne Hnin].
            cbn [fst] in Hne. rewrite decide_False by done.
            by rewrite IH. }
          rewrite Q.
          -- rewrite Ed, <- app_assoc. done.
          -- rewrite Ed, fmap_app, <- app_assoc. done. }
  destruct (G accounts [] (NoDup_nil_2) (Forall_nil_2 _)) as (N & K & Z0 & Q).
  split; [done|]. split; [|split; [done|]].
  - intros u. rewrite K, fmap_nil, elem_of_nil. tauto.
  - intros Hnd. by rewrite Q.
Qed.

(** *** The schedule and the actions *)

(** X19.  The dates of all phases are computed before the first action runs, from
    the generator and from each phase's window and number of actions only:
    phases with other actions, on another repository, get the same dates and
    leave the generator in the same state, and the repository is not
    touched. *)
Theorem schedule_depends_on_shape (phases phases' : list Phase) (w w' : World)
    (g : Rng) :
  Forall2 (fun p p' : Phase => p.1 = p'.1 /\ length p.2 = length p'.2)
          phases phases' ->
  exists ds g',
    compute_phase_dates phases (w, g) = (Ok ds, (w, g'))
    /\ compute_phase_dates phases' (w', g) = (Ok ds, (w', g'))
    /\ length ds = length phases.
Proof.
  intros H. revert g.
  induction H as [|[[start end_] commits] [[start2 end2] commits2]
                   phases phases' [Hw Hl] _ IH]; intros g.
  - exists [], g. by repeat split.
  - cbn [fst snd] in Hw, Hl. injection Hw as <- <-.
    cbn [compute_phase_dates]. unfold bind at 1 3, call_dates_between.
    cbn [fst snd]. rewrite <- Hl.
    destruct (dates_between start end_ (Z.of_nat (length commits)) g) as [d g1].
    destruct (IH g1) as (ds & g' & E1 & E2 & El).
    unfold bind. rewrite E1, E2. exists (d :: ds), g'.
    split; [done|]. split; [done|]. cbn [length]. by rewrite El.
Qed.

Lemma schedule_depends_on_shape_witness :
  Forall2 (fun p p' : Phase => p.1 = p'.1 /\ length p.2 = length p'.2)
          [phase_at 0 10 ["A"; "B"; "C"]%string]
          [phase_at 0 10 ["X"; "Y"; "Z"]%string]
  /\ exists ds g',
       compute_phase_dates [phase_at 0 10 ["A"; "B"; "C"]%string]
         (world_0, draws_0) = (Ok ds, (world_0, g'))
       /\ compute_phase_dates [phase_at 0 10 ["X"; "Y"; "Z"]%string]
            (world_fork, draws_0) = (Ok ds, (world_fork, g')).
Proof.
  assert (H : Forall2 (fun p p' : Phase => p.1 = p'.1 /\ length p.2 = length p'.2)
                [phase_at 0 10 ["A"; "B"; "C"]%string]
                [phase_at 0 10 ["X"; "Y"; "Z"]%string]).
  { constructor; [split; reflexivity|constructor]. }
  split; [exact H|].
  destruct (schedule_depends_on_shape _ _ world_0 world_fork draws_0 H)
    as (ds & g' & E1 & E2 & _).
  exists ds, g'. split; [exact E1|exact E2].
Defined.



End ScriptEdges.
